(** * Ethos integration client: token cache and request wrappers

    A shallow embedding of [src/integration.js]: the URL builder, the request
    options factory, the token manager [getToken] and the three operation
    wrappers [get], [graphql] and [post], followed by the properties of the
    specification proved about them.

    Conventions of the embedding.
    - A JavaScript string argument that may be left out is an
      [option string]; [None] is [undefined].  The guards of the source
      ([if (token)], [if (!apiKey)], [if (!resource)], [id ? .. : ..]) test
      truthiness, so an empty string takes the same branch as [undefined];
      [truthy] is that test.
    - Numbers (time stamps, status codes, counters) are integers of [Z].
    - Context objects live in a heap and are passed by reference, so that a
      result can be compared with the reference the caller supplied.  Search
      parameters and request bodies are plain values.
    - An [async] function is a state transformer that returns or throws;
      one call runs from start to end, calls do not interleave.
    - The HTTP client, the clock, the process environment and the JSON
      functions of the platform are parameters gathered in [Env].  Each HTTP
      call is logged with the place of the source that issued it.
    - The error kinds of the specification name throw sites: the source
      throws plain [Error] objects that differ by their message. *)

From Stdlib Require Import ZArith.
From stdpp Require Import base option list strings gmap pretty.

Local Open Scope Z_scope.
Local Open Scope string_scope.
Set Warnings "-register-all,-clear-no-such-hyp".

(** ** JavaScript values *)

(** Plain data as it travels through the module: request bodies, search
    parameters and what [JSON.parse] gives back. *)
Inductive value :=
  | VUndefined
  | VNull
  | VBool (b : bool)
  | VNum (n : Z)
  | VStr (s : string)
  | VArr (items : list value)
  | VObj (fields : list (string * value)).

(** Truthiness of a string argument: [Some s] with [s] not empty. *)
Definition truthy (v : option string) : option string :=
  match v with
  | Some s => if decide (s = "") then None else Some s
  | None => None
  end.

(** Truthiness of a data value, as tested by [searchParams.criteria && ..]. *)
Definition truthy_value (v : value) : bool :=
  match v with
  | VUndefined | VNull => false
  | VBool b => b
  | VNum n => bool_decide (n ≠ 0)
  | VStr s => bool_decide (s ≠ "")
  | VArr _ | VObj _ => true
  end.

(** [typeof v !== 'string'] *)
Definition not_a_string (v : value) : bool :=
  match v with VStr _ => false | _ => true end.

(** A string argument inside a template literal: [undefined] prints as the
    word. *)
Definition interpolate (v : option string) : string :=
  match v with Some s => s | None => "undefined" end.

(** A property key: [obj[undefined]] reads the property named undefined. *)
Definition property_key (v : option string) : string := interpolate v.

(** ** Thrown values *)

Inductive thrown :=
  | Error (message : string)        (* new Error(message) of this module *)
  | SyntaxError (text : string)     (* JSON.parse on text it cannot read *)
  | TypeError (message : string)    (* property access on undefined *)
  | RequestError (detail : string). (* whatever the HTTP client throws *)

(** The error kinds of the specification, named after the throw sites. *)
Definition ConfigurationError (base : string) : thrown :=
  Error ("Unknown base to buildUrl: " +:+ base).
Definition InvalidArgument (message : string) : thrown := Error message.
Definition AuthenticationError (statusCode : Z) : thrown :=
  Error ("Integration Auth failed. response status: " +:+ pretty statusCode).
Definition IntegrationError (statusCode : Z) : thrown :=
  Error ("Integration GraphQL failed. response status: " +:+ pretty statusCode).

(** ** Requests and the environment *)

Record RequestOptions := {
  headers : gmap string string;
  searchParams : option (gmap string value);
  json : option value
}.

Record Response := { statusCode : Z; body : string }.

Inductive HttpOutcome :=
  | Responds (response : Response)
  | Fails (error : thrown).

(** The [options] argument of the exported functions. *)
Record Options := {
  ethosIntegrationUrl : option string;
  options_headers : option (gmap string string)
}.

Record Env := {
  got_get : string → RequestOptions → HttpOutcome;
  got_post : string → RequestOptions → HttpOutcome;
  Date_getTime : Z;
  ETHOS_INTEGRATION_URL : option string;
  JSON_parse : string → option value;
  JSON_stringify : value → string
}.

Definition OK : Z := 200.
Definition CREATED : Z := 201.

(** ** URL builder and request options factory *)

Section Pure.
Context (E : Env).

(** [options.ethosIntegrationUrl || process.env.ETHOS_INTEGRATION_URL] *)
Definition integrationUrl (options : option Options) : option string :=
  match truthy (options ≫= ethosIntegrationUrl) with
  | Some root => Some root
  | None => ETHOS_INTEGRATION_URL E
  end.

Definition buildUrl (base id : option string) (options : option Options)
    (resource : option string) : thrown + string :=
  let base := default "api" base in
  if decide (base = "admin" ∨ base = "api") then
    inr (interpolate (integrationUrl options) +:+ "/" +:+ base +:+ "/"
         +:+ interpolate resource
         +:+ match truthy id with Some i => "/" +:+ i | None => "" end)
  else if decide (base = "auth" ∨ base = "graphql") then
    inr (interpolate (integrationUrl options) +:+ "/" +:+ base)
  else inl (Error ("Unknown base to buildUrl: " +:+ base)).

Definition baseOptions : RequestOptions :=
  {| headers := {[ "Accept" := "application/json"; "Cache-Control" := "no-cache" ]};
     searchParams := None;
     json := None |}.

(** [Object.assign(target, source)]: the source wins on common keys. *)
Definition Object_assign (target source : gmap string string) : gmap string string :=
  source ∪ target.

Definition createNewRequestOptions (hdrs : option (gmap string string)) : RequestOptions :=
  match hdrs with
  | Some h => {| headers := Object_assign (headers baseOptions) h;
                 searchParams := searchParams baseOptions;
                 json := json baseOptions |}
  | None => baseOptions
  end.

Definition addAuthorization (token : string) (options : RequestOptions) : RequestOptions :=
  {| headers := <[ "Authorization" := "Bearer " +:+ token ]> (headers options);
     searchParams := searchParams options;
     json := json options |}.
End Pure.

(** ** Contexts, the heap and the log of HTTP calls *)

(** An entry of the token cache.  The module lets [Cache.token] name the
    field where a function argument is called [token] as well. *)
Module Cache.
Record CachedToken := { expires : Z; token : string }.
End Cache.
Export Cache.

(** The caller's context object: the token cache and the three counters.
    A field that was never assigned is [None]. *)
Record ContextObject := {
  tokensByApiKey : option (gmap string CachedToken);
  ethosGetCount : option Z;
  ethosGraphQLCount : option Z;
  ethosPostCount : option Z
}.

(** The object literal [{}]. *)
Definition empty_object : ContextObject :=
  {| tokensByApiKey := None; ethosGetCount := None;
     ethosGraphQLCount := None; ethosPostCount := None |}.

Definition set_tokensByApiKey (m : gmap string CachedToken) (c : ContextObject) :=
  {| tokensByApiKey := Some m; ethosGetCount := ethosGetCount c;
     ethosGraphQLCount := ethosGraphQLCount c; ethosPostCount := ethosPostCount c |}.
Definition set_ethosGetCount (n : Z) (c : ContextObject) :=
  {| tokensByApiKey := tokensByApiKey c; ethosGetCount := Some n;
     ethosGraphQLCount := ethosGraphQLCount c; ethosPostCount := ethosPostCount c |}.
Definition set_ethosGraphQLCount (n : Z) (c : ContextObject) :=
  {| tokensByApiKey := tokensByApiKey c; ethosGetCount := ethosGetCount c;
     ethosGraphQLCount := Some n; ethosPostCount := ethosPostCount c |}.
Definition set_ethosPostCount (n : Z) (c : ContextObject) :=
  {| tokensByApiKey := tokensByApiKey c; ethosGetCount := ethosGetCount c;
     ethosGraphQLCount := ethosGraphQLCount c; ethosPostCount := Some n |}.

(** [count ? count + 1 : 1] *)
Definition next_count (count : option Z) : Z :=
  match count with
  | Some n => if decide (n = 0) then 1 else n + 1
  | None => 1
  end.

(** References to context objects: positions in the heap. *)
Abbreviation loc := nat (only parsing).

(** The four places of the source that call the HTTP client. *)
Inductive CallSite := AuthExchange | GetRequest | GraphqlRequest | PostRequest.

#[global] Instance CallSite_eq_dec : EqDecision CallSite.
Proof. solve_decision. Defined.

Record HttpCall := { site : CallSite; url : string; request : RequestOptions }.

Record State := {
  heap : list ContextObject;   (* the objects allocated so far *)
  calls : list HttpCall        (* the HTTP calls issued so far, oldest first *)
}.

(** ** The monad of the asynchronous functions

    An [async] function either returns, or rejects with a thrown value; both
    keep the mutations done so far.  [Wrong] marks a reference to no object,
    which no JavaScript program can hold. *)
Inductive Outcome (A : Type) :=
  | Return (a : A)
  | Throw (e : thrown)
  | Wrong.
Arguments Return {A} a.
Arguments Throw {A} e.
Arguments Wrong {A}.

Definition M (A : Type) : Type := State → Outcome A * State.

Definition ret {A} (a : A) : M A := λ st, (Return a, st).
Definition throw {A} (e : thrown) : M A := λ st, (Throw e, st).
Definition bind {A B} (m : M A) (k : A → M B) : M B := λ st,
  match m st with
  | (Return a, st') => k a st'
  | (Throw e, st') => (Throw e, st')
  | (Wrong, st') => (Wrong, st')
  end.
Definition try_catch {A} (m : M A) (handler : thrown → M A) : M A := λ st,
  match m st with
  | (Throw e, st') => handler e st'
  | r => r
  end.

Notation "'let!' x ':=' m 'in' k" := (bind m (λ x, k))
  (at level 10, x name, m at level 100, k at level 200).
Notation "m ';;' k" := (bind m (λ _, k))
  (at level 100, k at level 200, right associativity).

Definition lift {A} (r : thrown + A) : M A :=
  match r with inr a => ret a | inl e => throw e end.

Definition load (l : loc) : M ContextObject := λ st,
  match heap st !! l with
  | Some c => (Return c, st)
  | None => (Wrong, st)
  end.

(** Field updates of the state. *)
Definition with_heap (h : list ContextObject) (st : State) : State :=
  {| heap := h; calls := calls st |}.
Definition with_call (c : HttpCall) (st : State) : State :=
  {| heap := heap st; calls := calls st ++ [c] |}.

Definition store (l : loc) (c : ContextObject) : M unit := λ st,
  (Return (), with_heap (<[l := c]> (heap st)) st).

(** The default of the parameter [context = {}]. *)
Definition default_context (context : option loc) : M loc :=
  match context with
  | Some l => ret l
  | None => λ st, (Return (length (heap st)),
                   with_heap (heap st ++ [empty_object]) st)
  end.

(** [context.tokensByApiKey] read as an object. *)
Definition read_tokensByApiKey (l : loc) : M (gmap string CachedToken) :=
  let! c := load l in
  match tokensByApiKey c with
  | Some m => ret m
  | None => throw (TypeError "Cannot read properties of undefined")
  end.

(** ** The token manager and the operation wrappers *)

Record TokenResult := { result_context : loc; result_token : string }.

(** What [get] and [post] return: [{context, data}] or [{context, error}]. *)
Inductive WrapperResult :=
  | DataResult (context : loc) (data : value)
  | ErrorResult (context : loc) (error : thrown).

(** A property of the object that [graphql] returns: the context reference
    or a value spread from the parsed body. *)
Inductive property := Ref (l : loc) | Val (v : value).

Fixpoint chars_from (i : nat) (s : string) : list (string * value) :=
  match s with
  | EmptyString => []
  | String c rest => (pretty i, VStr (String c EmptyString)) :: chars_from (S i) rest
  end.

(** The own enumerable properties that [...v] copies. *)
Definition own_properties (v : value) : list (string * value) :=
  match v with
  | VObj fields => fields
  | VArr items => imap (λ i x, (pretty i, x)) items
  | VStr s => chars_from 0 s
  | _ => []
  end.

(** [{ ...o, ...v }]: the properties are assigned in order, so a later one
    replaces an earlier one of the same name. *)
Definition spread (o : gmap string property) (v : value) : gmap string property :=
  foldl (λ acc kv, <[kv.1 := Val kv.2]> acc) o (own_properties v).

(** The test [cachedToken && cachedToken.expires - (30 * 1000) > now]: the
    cached entry when the test passes. *)
Definition not_likely_expired (now : Z) (cachedToken : option CachedToken)
    : option CachedToken :=
  match cachedToken with
  | Some cached =>
    if decide (expires cached - 30 * 1000 > now) then Some cached else None
  | None => None
  end.

Section Operations.
Context (E : Env).

Definition post_request (s : CallSite) (u : string) (o : RequestOptions) : M Response :=
  λ st,
    let st' := with_call {| site := s; url := u; request := o |} st in
    match got_post E u o with
    | Responds r => (Return r, st')
    | Fails e => (Throw e, st')
    end.

Definition get_request (s : CallSite) (u : string) (o : RequestOptions) : M Response :=
  λ st,
    let st' := with_call {| site := s; url := u; request := o |} st in
    match got_get E u o with
    | Responds r => (Return r, st')
    | Fails e => (Throw e, st')
    end.

Definition parse (text : string) : M value :=
  match JSON_parse E text with
  | Some v => ret v
  | None => throw (SyntaxError text)
  end.

Definition getToken (apiKey : option string) (context : option loc)
    (options : option Options) (token : option string) : M TokenResult :=
  let! context := default_context context in
  match truthy token with
  | Some token => ret {| result_context := context; result_token := token |}
  | None =>
    (* use cached token if not likely expired *)
    let now := Date_getTime E in
    let! c := load context in
    (match tokensByApiKey c with
     | Some _ => ret ()
     | None => store context (set_tokensByApiKey ∅ c)
     end);;
    let! tokens := read_tokensByApiKey context in
    let cachedToken := tokens !! property_key apiKey in
    match not_likely_expired now cachedToken with
    | Some cachedToken =>
      ret {| result_context := context; result_token := Cache.token cachedToken |}
    | None =>
      match truthy apiKey with
      | None => throw (Error "getToken missing apiKey")
      | Some apiKey =>
        let requestOptions := addAuthorization apiKey (createNewRequestOptions None) in
        let! url := lift (buildUrl E (Some "auth") None options None) in
        let! response := post_request AuthExchange url requestOptions in
        if decide (statusCode response = OK) then
          let token := body response in
          (* Ethos currently uses 5 minute expirations *)
          let expires := now + 5 * 60 * 1000 in
          let! tokens := read_tokensByApiKey context in
          let! c := load context in
          store context
            (set_tokensByApiKey
               (<[apiKey := {| expires := expires; token := token |}]> tokens) c);;
          ret {| result_context := context; result_token := token |}
        else
          throw (Error ("Integration Auth failed. response status: "
                        +:+ pretty (statusCode response)))
      end
    end
  end.

(** [searchParams.criteria] is stringified unless it is a string already. *)
Definition stringify_criteria (params : gmap string value) : gmap string value :=
  match params !! "criteria" with
  | Some criteria =>
    if truthy_value criteria && not_a_string criteria
    then <["criteria" := VStr (JSON_stringify E criteria)]> params
    else params
  | None => params
  end.

(** The request options of [get] (lines 109-111). *)
Definition get_requestOptions (tokenToUse : string) (options : option Options)
    (searchParams : gmap string value) : RequestOptions :=
  let requestOptions :=
    addAuthorization tokenToUse
      (createNewRequestOptions (options ≫= options_headers)) in
  {| headers := headers requestOptions;
     searchParams := Some searchParams;
     json := json requestOptions |}.

(** The request options of [graphql] (lines 144-149). *)
Definition graphql_requestOptions (tokenToUse : string) (options : option Options)
    (query variables : value) : RequestOptions :=
  let requestOptions :=
    addAuthorization tokenToUse
      (createNewRequestOptions (options ≫= options_headers)) in
  {| headers := headers requestOptions;
     searchParams := searchParams requestOptions;
     json := Some (VObj [("query", query); ("variables", variables)]) |}.

(** The request options of [post] (lines 177-181). *)
Definition post_requestOptions (tokenToUse : string) (options : option Options)
    (searchParams : gmap string value) (data : value) : RequestOptions :=
  let hdrs :=
    Object_assign (Object_assign ∅ (default ∅ (options ≫= options_headers)))
                  {[ "Content-Type" := "application/json" ]} in
  let requestOptions :=
    addAuthorization tokenToUse (createNewRequestOptions (Some hdrs)) in
  {| headers := headers requestOptions;
     searchParams := Some searchParams;
     json := Some data |}.

Definition get (apiKey base : option string) (context : option loc)
    (id resource : option string) (searchParams : option (gmap string value))
    (token : option string) (options : option Options) : M WrapperResult :=
  let base := default "api" base in
  let! context := default_context context in
  let searchParams := default ∅ searchParams in
  match truthy resource with
  | None => throw (Error "get: missing resource name")
  | Some _ =>
    let! r := getToken apiKey (Some context) options token in
    let tokenToUse := result_token r in
    let searchParams := stringify_criteria searchParams in
    match truthy (Some tokenToUse) with
    | Some tokenToUse =>
      let requestOptions := get_requestOptions tokenToUse options searchParams in
      let! url := lift (buildUrl E (Some base) id options resource) in
      let! c := load context in
      store context (set_ethosGetCount (next_count (ethosGetCount c)) c);;
      try_catch
        (let! response := get_request GetRequest url requestOptions in
         if decide (statusCode response = OK) then
           let! data := parse (body response) in
           ret (DataResult context data)
         else
           throw (Error ("Integration get failed. response status: "
                         +:+ pretty (statusCode response))))
        (λ error, ret (ErrorResult context error))
    | None => throw (Error "get failed to get a token")
    end
  end.

Definition graphql (apiKey : option string) (context : option loc)
    (options : option Options) (query : value) (token : option string)
    (variables : value) : M (gmap string property) :=
  let! context := default_context context in
  let! r := getToken apiKey (Some context) options token in
  let tokenToUse := result_token r in
  match truthy (Some tokenToUse) with
  | Some tokenToUse =>
    let requestOptions :=
      graphql_requestOptions tokenToUse options query variables in
    let! url := lift (buildUrl E (Some "graphql") None options None) in
    let! c := load context in
    store context (set_ethosGraphQLCount (next_count (ethosGraphQLCount c)) c);;
    let! response := post_request GraphqlRequest url requestOptions in
    if decide (statusCode response = OK) then
      let! parsed := parse (body response) in
      ret (spread {[ "context" := Ref context ]} parsed)
    else
      throw (Error ("Integration GraphQL failed. response status: "
                    +:+ pretty (statusCode response)))
  | None => throw (Error "grapql failed to get a token")
  end.

Definition post (apiKey base : option string) (context : option loc)
    (data : value) (id resource : option string)
    (searchParams : option (gmap string value))
    (token : option string) (options : option Options) : M WrapperResult :=
  let base := default "api" base in
  let! context := default_context context in
  let searchParams := default ∅ searchParams in
  match truthy resource with
  | None => throw (Error "post: missing resource name")
  | Some _ =>
    let! r := getToken apiKey (Some context) options token in
    let tokenToUse := result_token r in
    let searchParams := stringify_criteria searchParams in
    match truthy (Some tokenToUse) with
    | Some tokenToUse =>
      let requestOptions :=
        post_requestOptions tokenToUse options searchParams data in
      let! url := lift (buildUrl E (Some base) id options resource) in
      let! c := load context in
      store context (set_ethosPostCount (next_count (ethosPostCount c)) c);;
      try_catch
        (let! response := post_request PostRequest url requestOptions in
         if decide (statusCode response = OK ∨ statusCode response = CREATED) then
           let! data := parse (body response) in
           ret (DataResult context data)
         else
           throw (Error ("Integration post failed. response status: "
                         +:+ pretty (statusCode response))))
        (λ error, ret (ErrorResult context error))
    | None => throw (Error "post failed to get a token")
    end
  end.
End Operations.

(** ** Observations on a state *)

(** [context.tokensByApiKey[key]] for the context at [l], when there is one. *)
Definition cache_entry (st : State) (l : loc) (key : string) : option CachedToken :=
  c ← heap st !! l; m ← tokensByApiKey c; m !! key.


(** A cached entry is usable while [expires - 30s] is after [now]. *)
Definition usable (now : Z) (entry : option CachedToken) : Prop :=
  match entry with
  | Some cached => expires cached - 30 * 1000 > now
  | None => False
  end.

#[global] Instance usable_dec now entry : Decision (usable now entry).
Proof. destruct entry; simpl; apply _. Defined.

(** The authentication exchanges among the HTTP calls of a state. *)
Definition auth_exchanges (st : State) : list HttpCall :=
  filter (λ c, site c = AuthExchange) (calls st).

(** No authentication exchange was added and no cache entry written
    between two states. *)
Definition untouched_by_auth (st st' : State) : Prop :=
  auth_exchanges st' = auth_exchanges st
  ∧ ∀ l key, cache_entry st' l key = cache_entry st l key.

(** The bases that [buildUrl] accepts, for the base a wrapper passes on. *)
Definition known_base (base : option string) : Prop :=
  let base := default "api" base in
  base = "admin" ∨ base = "api" ∨ base = "auth" ∨ base = "graphql".





(** ** The straight-line outcomes of the operations

    Names for the requests, results and states that the operations reach
    on each of their paths; the lemmas below relate them to the monadic
    definitions. *)

Section Paths.
Context (E : Env).

(** The request of the authentication exchange. *)
Definition auth_call (key : string) (options : option Options) : HttpCall :=
  {| site := AuthExchange;
     url := interpolate (integrationUrl E options) +:+ "/auth";
     request := addAuthorization key (createNewRequestOptions None) |}.

(** The context once [tokensByApiKey] has been initialised. *)
Definition initialised (c : ContextObject) : ContextObject :=
  set_tokensByApiKey (default ∅ (tokensByApiKey c)) c.

(** What the parameter default [context = {}] yields. *)
Definition context_or_new (context : option loc) (st : State) : loc * State :=
  match context with
  | Some l => (l, st)
  | None => (length (heap st), with_heap (heap st ++ [empty_object]) st)
  end.

(** The result of the [try] block of [get] for an answer of the client. *)
Definition get_result (l : loc) (answer : HttpOutcome) : WrapperResult :=
  match answer with
  | Responds response =>
    if decide (statusCode response = OK) then
      match JSON_parse E (body response) with
      | Some data => DataResult l data
      | None => ErrorResult l (SyntaxError (body response))
      end
    else ErrorResult l (Error ("Integration get failed. response status: "
                               +:+ pretty (statusCode response)))
  | Fails e => ErrorResult l e
  end.

(** The same for [post], where 201 is a success as well. *)
Definition post_result (l : loc) (answer : HttpOutcome) : WrapperResult :=
  match answer with
  | Responds response =>
    if decide (statusCode response = OK ∨ statusCode response = CREATED) then
      match JSON_parse E (body response) with
      | Some data => DataResult l data
      | None => ErrorResult l (SyntaxError (body response))
      end
    else ErrorResult l (Error ("Integration post failed. response status: "
                               +:+ pretty (statusCode response)))
  | Fails e => ErrorResult l e
  end.

(** [graphql] has no [try] block: failures are thrown. *)
Definition graphql_result (l : loc) (answer : HttpOutcome)
    : Outcome (gmap string property) :=
  match answer with
  | Responds response =>
    if decide (statusCode response = OK) then
      match JSON_parse E (body response) with
      | Some parsed => Return (spread {[ "context" := Ref l ]} parsed)
      | None => Throw (SyntaxError (body response))
      end
    else Throw (IntegrationError (statusCode response))
  | Fails e => Throw e
  end.

(** The state after the counter was incremented and the call issued. *)
Definition counted (set : Z → ContextObject → ContextObject)
    (count : ContextObject → option Z) (l : loc) (c : ContextObject)
    (call : HttpCall) (st : State) : State :=
  with_call call (with_heap (<[l := set (next_count (count c)) c]> (heap st)) st).

Definition same_counters (c c' : ContextObject) : Prop :=
  ethosGetCount c' = ethosGetCount c
  ∧ ethosGraphQLCount c' = ethosGraphQLCount c
  ∧ ethosPostCount c' = ethosPostCount c.
End Paths.

(** ** Sequences of calls

    The states reached when operations follow one another on the same
    context. *)

Section Sequences.
Context (E : Env).

(** The state after an authentication exchange that answered 200: the
    call is logged and the body cached under the key. *)
Definition exchanged (key : string) (options : option Options) (l : loc)
    (c : ContextObject) (response : Response) (st : State) : State :=
  let st1 := with_call (auth_call E key options)
               (with_heap (<[l := initialised c]> (heap st)) st) in
  with_heap
    (<[l := set_tokensByApiKey
              (<[key := {| expires := Date_getTime E + 5 * 60 * 1000;
                           token := body response |}]>
                 (default ∅ (tokensByApiKey c)))
              (initialised c)]> (heap st1)) st1.

End Sequences.

(** The calls that one run of a wrapper may add to the log: at most one
    authentication exchange, then at most one request of its own site. *)
Definition wrapper_calls (own : CallSite) (new : list HttpCall) : Prop :=
  ∃ auths requests,
    new = (auths ++ requests)%list
    ∧ (length auths ≤ 1)%nat ∧ (length requests ≤ 1)%nat
    ∧ Forall (λ call, site call = AuthExchange) auths
    ∧ Forall (λ call, site call = own) requests.

(** ** A sample provider

    A concrete environment and a few states on which the statements below
    are exercised.  The provider answers by URL; the integration root
    selects the behaviour. *)

Definition quote : string := String (Ascii.ascii_of_nat 34) EmptyString.

(** The text of a body with the top-level fields context and data. *)
Definition context_body : string :=
  "{" +:+ quote +:+ "context" +:+ quote +:+ ":1,"
      +:+ quote +:+ "data" +:+ quote +:+ ":null}".

Definition sample_answer (table : list (string * Response)) (u : string) : HttpOutcome :=
  match list_find (λ entry, entry.1 = u) table with
  | Some (_, entry) => Responds entry.2
  | None => Fails (RequestError "ECONNREFUSED")
  end.

Definition sample_env : Env :=
  {| got_get := λ u _,
       sample_answer
         [("https://ethos/api/students", {| statusCode := 200; body := "{}" |});
          ("https://ethos/api/students/123", {| statusCode := 404; body := "not found" |});
          ("https://html/api/students", {| statusCode := 200; body := "<html>" |})] u;
     got_post := λ u _,
       sample_answer
         [("https://ethos/auth", {| statusCode := 200; body := "tok123" |});
          ("https://ethos/graphql", {| statusCode := 200; body := context_body |});
          ("https://ethos/api/students", {| statusCode := 201; body := "{}" |});
          ("https://plain/graphql", {| statusCode := 200; body := "{}" |});
          ("https://down/auth", {| statusCode := 401; body := "denied" |});
          ("https://down/graphql", {| statusCode := 503; body := "unavailable" |});
          ("https://html/auth", {| statusCode := 200; body := "<html>" |});
          ("https://html/graphql", {| statusCode := 200; body := "<html>" |});
          ("https://html/api/students", {| statusCode := 200; body := "<html>" |})] u;
     Date_getTime := 1000000;
     ETHOS_INTEGRATION_URL := Some "https://ethos";
     JSON_parse := λ text,
       if decide (text = "{}") then Some (VObj [])
       else if decide (text = context_body)
       then Some (VObj [("context", VNum 1); ("data", VNull)])
       else None;
     JSON_stringify := λ _, "{}" |}.

(** Options that select another integration root. *)
Definition at_root (root : string) : option Options :=
  Some {| ethosIntegrationUrl := Some root; options_headers := None |}.

(** One context without any field. *)
Definition fresh_state : State :=
  {| heap := [empty_object]; calls := [] |}.

(** One context with a token cached for the key K until [expires]. *)
Definition cached_state (expires : Z) : State :=
  {| heap := [set_tokensByApiKey
                {[ "K" := {| expires := expires; token := "cached" |} ]}
                empty_object];
     calls := [] |}.

(** The sample provider with an authentication endpoint that answers 200
    with an empty body. *)
Definition silent_env : Env :=
  {| got_get := got_get sample_env;
     got_post := λ u o,
       if decide (u = "https://ethos/auth")
       then Responds {| statusCode := 200; body := "" |}
       else got_post sample_env u o;
     Date_getTime := Date_getTime sample_env;
     ETHOS_INTEGRATION_URL := ETHOS_INTEGRATION_URL sample_env;
     JSON_parse := JSON_parse sample_env;
     JSON_stringify := JSON_stringify sample_env |}.

(** The same provider when no integration root is configured. *)
Definition silent_env_without_root : Env :=
  {| got_get := got_get silent_env;
     got_post := got_post silent_env;
     Date_getTime := Date_getTime silent_env;
     ETHOS_INTEGRATION_URL := None;
     JSON_parse := JSON_parse silent_env;
     JSON_stringify := JSON_stringify silent_env |}.

(** The sample provider at another reading of the clock. *)
Definition sample_env_at (now : Z) : Env :=
  {| got_get := got_get sample_env;
     got_post := got_post sample_env;
     Date_getTime := now;
     ETHOS_INTEGRATION_URL := ETHOS_INTEGRATION_URL sample_env;
     JSON_parse := JSON_parse sample_env;
     JSON_stringify := JSON_stringify sample_env |}.

(** A provider whose GraphQL endpoint answers the JSON text null. *)
Definition null_env : Env :=
  {| got_get := got_get sample_env;
     got_post := λ u o,
       if decide (u = "https://ethos/graphql")
       then Responds {| statusCode := 200; body := "null" |}
       else got_post sample_env u o;
     Date_getTime := Date_getTime sample_env;
     ETHOS_INTEGRATION_URL := ETHOS_INTEGRATION_URL sample_env;
     JSON_parse := λ text,
       if decide (text = "null") then Some VNull else JSON_parse sample_env text;
     JSON_stringify := JSON_stringify sample_env |}.

(** ** Proof support *)

Lemma bind_Return {A B} (m : M A) (k : A → M B) st a st' :
  m st = (Return a, st') → bind m k st = k a st'.
Proof. unfold bind. by intros ->. Qed.

Lemma bind_Throw {A B} (m : M A) (k : A → M B) st e st' :
  m st = (Throw e, st') → bind m k st = (Throw e, st').
Proof. unfold bind. by intros ->. Qed.

Lemma bind_Wrong {A B} (m : M A) (k : A → M B) st st' :
  m st = (Wrong, st') → bind m k st = (Wrong, st').
Proof. unfold bind. by intros ->. Qed.

Lemma load_Some l c st : heap st !! l = Some c → load l st = (Return c, st).
Proof. unfold load. by intros ->. Qed.

Lemma load_None l st : heap st !! l = None → load l st = (Wrong, st).
Proof. unfold load. by intros ->. Qed.

Lemma read_tokensByApiKey_Some l c m st :
  heap st !! l = Some c → tokensByApiKey c = Some m →
  read_tokensByApiKey l st = (Return m, st).
Proof.
  intros Hl Hc. unfold read_tokensByApiKey.
  rewrite (bind_Return _ _ _ c st) by by apply load_Some. by rewrite Hc.
Qed.

Lemma truthy_Some v s : truthy v = Some s → v = Some s ∧ s ≠ "".
Proof.
  destruct v as [x|]; simpl; [|done].
  case_decide; [done|]. intros [= <-]. done.
Qed.

Lemma not_likely_expired_usable now entry :
  usable now entry → not_likely_expired now entry = entry ∧ is_Some entry.
Proof.
  destruct entry as [cached|]; simpl; [|done]. intros H.
  by rewrite decide_True.
Qed.

Lemma not_likely_expired_unusable now entry :
  ¬ usable now entry → not_likely_expired now entry = None.
Proof.
  destruct entry as [cached|]; simpl; [|done]. intros H.
  by rewrite decide_False.
Qed.

Lemma append_empty (s : string) : s +:+ "" = s.
Proof. induction s as [|a s IH]; [done|]. exact (f_equal (String a) IH). Qed.

(** The values that fail a guard such as [if (token)]: the absent one and
    the empty string. *)
Lemma truthy_None v : truthy v = None ↔ v = None ∨ v = Some "".
Proof.
  destruct v as [s|]; simpl; [|naive_solver].
  case_decide; naive_solver.
Qed.

Lemma truthy_nonempty s : s ≠ "" → truthy (Some s) = Some s.
Proof. intros. simpl. by rewrite decide_False. Qed.

Ltac run_bind :=
  first
    [ erewrite bind_Return by
        first [ reflexivity | eassumption | apply load_Some; eassumption
              | eapply read_tokensByApiKey_Some; eassumption ]
    | erewrite bind_Throw by first [ reflexivity | eassumption ]
    | erewrite bind_Wrong by
        first [ reflexivity | eassumption | apply load_None; eassumption ] ].

Section Claims.
Context (E : Env).

Lemma buildUrl_auth options :
  buildUrl E (Some "auth") None options None
    = inr (interpolate (integrationUrl E options) +:+ "/auth").
Proof. reflexivity. Qed.

Lemma buildUrl_graphql options :
  buildUrl E (Some "graphql") None options None
    = inr (interpolate (integrationUrl E options) +:+ "/graphql").
Proof. reflexivity. Qed.

(** *** The paths of [getToken] *)

Lemma initialised_id c m : tokensByApiKey c = Some m → initialised c = c.
Proof. destruct c; simpl. intros ->. reflexivity. Qed.

Lemma with_heap_id l c st : heap st !! l = Some c → with_heap (<[l := c]> (heap st)) st = st.
Proof. intros H. unfold with_heap. rewrite list_insert_id by done. by destruct st. Qed.

Lemma heap_store l c c' st :
  heap st !! l = Some c → heap (with_heap (<[l := c']> (heap st)) st) !! l = Some c'.
Proof.
  intros H. simpl. apply list_lookup_insert_eq. by eapply lookup_lt_Some.
Qed.

(** A supplied token short-circuits. *)
Lemma getToken_supplied apiKey context options token t st :
  truthy token = Some t →
  getToken E apiKey context options token st
    = (let! l := default_context context in
       ret {| result_context := l; result_token := t |}) st.
Proof.
  intros H. unfold getToken, bind.
  destruct (default_context context st) as [[l| |] st0]; [|done..].
  by rewrite H.
Qed.

(** The beginning of the other path: after the lazy initialisation the
    cache is looked up. *)
Lemma getToken_lookup apiKey l options token st c :
  truthy token = None →
  heap st !! l = Some c →
  let st0 := with_heap (<[l := initialised c]> (heap st)) st in
  let entry := default ∅ (tokensByApiKey c) !! property_key apiKey in
  heap st0 !! l = Some (initialised c)
  ∧ (usable (Date_getTime E) entry →
     ∃ cached, entry = Some cached
       ∧ getToken E apiKey (Some l) options token st
         = (Return {| result_context := l; result_token := Cache.token cached |}, st0))
  ∧ (¬ usable (Date_getTime E) entry → truthy apiKey = None →
     getToken E apiKey (Some l) options token st
       = (Throw (Error "getToken missing apiKey"), st0))
  ∧ (¬ usable (Date_getTime E) entry → ∀ key, truthy apiKey = Some key →
     let st1 := with_call (auth_call E key options) st0 in
     match got_post E (url (auth_call E key options)) (request (auth_call E key options)) with
     | Fails e =>
       getToken E apiKey (Some l) options token st = (Throw e, st1)
     | Responds response =>
       if decide (statusCode response = OK) then
         getToken E apiKey (Some l) options token st
           = (Return {| result_context := l; result_token := body response |},
              with_heap
                (<[l := set_tokensByApiKey
                          (<[key := {| expires := Date_getTime E + 5 * 60 * 1000;
                                       token := body response |}]>
                             (default ∅ (tokensByApiKey c)))
                          (initialised c)]> (heap st1)) st1)
       else
         getToken E apiKey (Some l) options token st
           = (Throw (AuthenticationError (statusCode response)), st1)
     end).
Proof.
  intros Htok Hl st0 entry.
  assert (Hl0 : heap st0 !! l = Some (initialised c)) by by eapply heap_store.
  assert (Hm0 : tokensByApiKey (initialised c) = Some (default ∅ (tokensByApiKey c)))
    by reflexivity.
  assert (Hstart : ∀ k : gmap string CachedToken → M TokenResult,
    (let! c' := load l in
     (match tokensByApiKey c' with
      | Some _ => ret ()
      | None => store l (set_tokensByApiKey ∅ c')
      end);; bind (read_tokensByApiKey l) k) st
    = k (default ∅ (tokensByApiKey c)) st0).
  { intros k. run_bind.
    destruct (tokensByApiKey c) as [m|] eqn:Hc.
    - run_bind. subst st0. rewrite (initialised_id c m) by done.
      rewrite with_heap_id by done. by run_bind.
    - run_bind. subst st0. unfold initialised. rewrite Hc. simpl default.
      by erewrite bind_Return
        by (eapply read_tokensByApiKey_Some; [by eapply heap_store | done]). }
  split; [done|].
  split; [|split].
  - intros [Hu [cached Hcached]]%not_likely_expired_usable.
    exists cached. split; [done|].
    unfold getToken. run_bind. rewrite Htok, Hstart. fold entry.
    by rewrite Hu, Hcached.
  - intros Hu%not_likely_expired_unusable Hkey.
    unfold getToken. run_bind. rewrite Htok, Hstart. fold entry.
    by rewrite Hu, Hkey.
  - intros Hu%not_likely_expired_unusable key Hkey st1.
    assert (Hpost : post_request E AuthExchange (url (auth_call E key options))
                      (request (auth_call E key options)) st0
                    = match got_post E (url (auth_call E key options))
                              (request (auth_call E key options)) with
                      | Responds r => (Return r, st1)
                      | Fails e => (Throw e, st1)
                      end) by reflexivity.
    destruct (got_post E _ _) as [response|e] eqn:Hgot.
    + case_decide as Hstatus.
      * unfold getToken. run_bind. rewrite Htok, Hstart. fold entry.
        rewrite Hu, Hkey, buildUrl_auth. run_bind. run_bind.
        rewrite decide_True by done.
        assert (Hl1 : heap st1 !! l = Some (initialised c)) by done.
        run_bind. run_bind. by run_bind.
      * unfold getToken. run_bind. rewrite Htok, Hstart. fold entry.
        rewrite Hu, Hkey, buildUrl_auth. run_bind. run_bind.
        by rewrite decide_False by done.
    + unfold getToken. run_bind. rewrite Htok, Hstart. fold entry.
      rewrite Hu, Hkey, buildUrl_auth. run_bind. by run_bind.
Qed.

Lemma property_key_truthy apiKey key : truthy apiKey = Some key → property_key apiKey = key.
Proof. by intros [-> _]%truthy_Some. Qed.

Lemma cache_entry_lookup st l c key :
  heap st !! l = Some c →
  cache_entry st l key = default ∅ (tokensByApiKey c) !! key.
Proof.
  intros H. unfold cache_entry. rewrite H. simpl.
  by destruct (tokensByApiKey c).
Qed.

Lemma cache_entry_with_call st call l key :
  cache_entry (with_call call st) l key = cache_entry st l key.
Proof. reflexivity. Qed.

(** Storing the initialised context changes no cache entry. *)
Lemma cache_entry_initialised st l c l' key :
  heap st !! l = Some c →
  cache_entry (with_heap (<[l := initialised c]> (heap st)) st) l' key
    = cache_entry st l' key.
Proof.
  intros H. unfold cache_entry. simpl.
  destruct (decide (l' = l)) as [->|Hne].
  - rewrite list_lookup_insert_eq by by eapply lookup_lt_Some.
    rewrite H. simpl. destruct (tokensByApiKey c); [done|].
    simpl. by rewrite lookup_empty.
  - by rewrite list_lookup_insert_ne.
Qed.

(** C1. Without a supplied token, a cached entry for the API key whose
    [expires - 30s] lies strictly after the current time is returned as the
    token; the state is left as it was: no HTTP call is logged and the
    heap, hence the cache entry, is unchanged. *)
Theorem getToken_cache_hit (apiKey : option string) (l : loc)
    (options : option Options) (token : option string) (st : State)
    (cached : CachedToken) :
  truthy token = None →
  cache_entry st l (property_key apiKey) = Some cached →
  expires cached - 30 * 1000 > Date_getTime E →
  getToken E apiKey (Some l) options token st
    = (Return {| result_context := l; result_token := Cache.token cached |}, st).
Proof.
  intros Htok Hentry Hexp.
  destruct (heap st !! l) as [c|] eqn:Hl;
    [|by unfold cache_entry in Hentry; rewrite Hl in Hentry].
  destruct (tokensByApiKey c) as [m|] eqn:Hc;
    [|by unfold cache_entry in Hentry; rewrite Hl in Hentry;
         simpl in Hentry; rewrite Hc in Hentry].
  destruct (getToken_lookup apiKey l options token st c Htok Hl) as (_ & Hhit & _).
  rewrite <- (cache_entry_lookup st l c) in Hhit by done.
  rewrite Hentry in Hhit. destruct (Hhit Hexp) as (? & [= <-] & ->).
  rewrite (initialised_id c m) by done. by rewrite with_heap_id.
Qed.

(** C2. Without a supplied token, with an API key and no usable cached
    entry for it, exactly one HTTP call is issued, the authentication POST;
    when it answers 200 the body is returned as the token and the cache
    holds it under the API key with [expires = now + 300000], whatever was
    there before. *)
Theorem getToken_cache_miss (apiKey : option string) (key : string) (l : loc)
    (options : option Options) (token : option string) (st : State)
    (c : ContextObject) :
  truthy token = None →
  truthy apiKey = Some key →
  heap st !! l = Some c →
  ¬ usable (Date_getTime E) (cache_entry st l key) →
  ∃ out st',
    getToken E apiKey (Some l) options token st = (out, st')
    ∧ calls st' = (calls st ++ [auth_call E key options])%list
    ∧ ∀ response,
        got_post E (url (auth_call E key options)) (request (auth_call E key options))
          = Responds response →
        statusCode response = 200 →
        out = Return {| result_context := l; result_token := body response |}
        ∧ cache_entry st' l key
          = Some {| expires := Date_getTime E + 300000; token := body response |}.
Proof.
  intros Htok Hkey Hl Hu.
  destruct (getToken_lookup apiKey l options token st c Htok Hl) as (Hl0 & _ & _ & Hmiss).
  rewrite (property_key_truthy _ _ Hkey), <- (cache_entry_lookup st l c) in Hmiss by done.
  specialize (Hmiss Hu key Hkey). simpl in Hmiss.
  destruct (got_post E _ _) as [response|e] eqn:Hgot.
  - case_decide as Hstatus.
    + eexists _, _. split; [exact Hmiss|]. split; [done|].
      intros ? [= <-] _. split; [done|].
      unfold cache_entry. simpl.
      rewrite list_lookup_insert_eq
        by (rewrite length_insert; by eapply lookup_lt_Some).
      simpl. by rewrite lookup_insert_eq.
    + eexists _, _. split; [exact Hmiss|]. split; [done|].
      by intros ? [= <-] ?.
  - eexists _, _. split; [exact Hmiss|]. split; [done|]. done.
Qed.

(** C3. Without a supplied token and without a usable cached entry: a
    missing API key (absent or empty) makes [getToken] throw the
    missing-apiKey error (the [InvalidArgument] of the specification)
    without any HTTP call; with an API key, an authentication POST that
    answers a status other than 200 makes it throw the authentication
    error carrying that status.  Both are thrown, not returned, and on both
    paths every cache entry of the context is what it was. *)
Theorem getToken_failures (apiKey : option string) (l : loc)
    (options : option Options) (token : option string) (st : State)
    (c : ContextObject) :
  truthy token = None →
  heap st !! l = Some c →
  ¬ usable (Date_getTime E) (cache_entry st l (property_key apiKey)) →
  (truthy apiKey = None →
     ∃ st',
       getToken E apiKey (Some l) options token st
         = (Throw (InvalidArgument "getToken missing apiKey"), st')
       ∧ calls st' = calls st
       ∧ ∀ k, cache_entry st' l k = cache_entry st l k)
  ∧ (∀ key response,
       truthy apiKey = Some key →
       got_post E (url (auth_call E key options)) (request (auth_call E key options))
         = Responds response →
       statusCode response ≠ 200 →
       ∃ st',
         getToken E apiKey (Some l) options token st
           = (Throw (AuthenticationError (statusCode response)), st')
         ∧ ∀ k, cache_entry st' l k = cache_entry st l k).
Proof.
  intros Htok Hl Hu.
  destruct (getToken_lookup apiKey l options token st c Htok Hl)
    as (Hl0 & _ & Hmissing & Hmiss).
  rewrite <- (cache_entry_lookup st l c) in Hmissing, Hmiss by done.
  split.
  - intros Hkey. eexists. split; [by apply Hmissing|]. split; [done|].
    intros k. by apply cache_entry_initialised.
  - intros key response Hkey Hgot Hstatus.
    specialize (Hmiss Hu key Hkey). cbv zeta in Hmiss. rewrite Hgot in Hmiss.
    rewrite decide_False in Hmiss by done.
    eexists. split; [exact Hmiss|].
    intros k. rewrite cache_entry_with_call. by apply cache_entry_initialised.
Qed.

(** *** The paths of the wrappers *)

Lemma default_context_run context st :
  default_context context st
    = (Return (context_or_new context st).1, (context_or_new context st).2).
Proof. by destruct context. Qed.

Lemma get_unfold apiKey base context id resource searchParams token options st :
  get E apiKey base context id resource searchParams token options st =
  let (l, st0) := context_or_new context st in
  match truthy resource with
  | None => (Throw (Error "get: missing resource name"), st0)
  | Some _ =>
    match getToken E apiKey (Some l) options token st0 with
    | (Return r, st1) =>
      match truthy (Some (result_token r)) with
      | None => (Throw (Error "get failed to get a token"), st1)
      | Some tokenToUse =>
        match buildUrl E (Some (default "api" base)) id options resource with
        | inl e => (Throw e, st1)
        | inr u =>
          match heap st1 !! l with
          | None => (Wrong, st1)
          | Some c =>
            let o := get_requestOptions tokenToUse options
                       (stringify_criteria E (default ∅ searchParams)) in
            (Return (get_result E l (got_get E u o)),
             counted set_ethosGetCount ethosGetCount l c
               {| site := GetRequest; url := u; request := o |} st1)
          end
        end
      end
    | (Throw e, st1) => (Throw e, st1)
    | (Wrong, st1) => (Wrong, st1)
    end
  end.
Proof.
  unfold get. rewrite (bind_Return _ _ _ _ _ (default_context_run context st)).
  destruct (context_or_new context st) as [l st0]. simpl fst; simpl snd.
  destruct (truthy resource); [|done].
  destruct (getToken E apiKey (Some l) options token st0) as [[r|e|] st1] eqn:Htok;
    [|by run_bind..].
  run_bind. destruct (truthy (Some (result_token r))) as [t|]; [|done].
  destruct (buildUrl E _ id options resource) as [e|u]; [by run_bind|].
  run_bind.
  destruct (heap st1 !! l) as [c|] eqn:Hl; [|by run_bind].
  run_bind. run_bind.
  unfold try_catch, bind, get_request, get_result, parse, counted.
  destruct (got_get E u _) as [response|e]; [|done].
  case_decide; [|done]. by destruct (JSON_parse E (body response)).
Qed.

Lemma post_unfold apiKey base context data id resource searchParams token options st :
  post E apiKey base context data id resource searchParams token options st =
  let (l, st0) := context_or_new context st in
  match truthy resource with
  | None => (Throw (Error "post: missing resource name"), st0)
  | Some _ =>
    match getToken E apiKey (Some l) options token st0 with
    | (Return r, st1) =>
      match truthy (Some (result_token r)) with
      | None => (Throw (Error "post failed to get a token"), st1)
      | Some tokenToUse =>
        match buildUrl E (Some (default "api" base)) id options resource with
        | inl e => (Throw e, st1)
        | inr u =>
          match heap st1 !! l with
          | None => (Wrong, st1)
          | Some c =>
            let o := post_requestOptions tokenToUse options
                       (stringify_criteria E (default ∅ searchParams)) data in
            (Return (post_result E l (got_post E u o)),
             counted set_ethosPostCount ethosPostCount l c
               {| site := PostRequest; url := u; request := o |} st1)
          end
        end
      end
    | (Throw e, st1) => (Throw e, st1)
    | (Wrong, st1) => (Wrong, st1)
    end
  end.
Proof.
  unfold post. rewrite (bind_Return _ _ _ _ _ (default_context_run context st)).
  destruct (context_or_new context st) as [l st0]. simpl fst; simpl snd.
  destruct (truthy resource); [|done].
  destruct (getToken E apiKey (Some l) options token st0) as [[r|e|] st1] eqn:Htok;
    [|by run_bind..].
  run_bind. destruct (truthy (Some (result_token r))) as [t|]; [|done].
  destruct (buildUrl E _ id options resource) as [e|u]; [by run_bind|].
  run_bind.
  destruct (heap st1 !! l) as [c|] eqn:Hl; [|by run_bind].
  run_bind. run_bind.
  unfold try_catch, bind, post_request, post_result, parse, counted.
  destruct (got_post E u _) as [response|e]; [|done].
  case_decide; [|done]. by destruct (JSON_parse E (body response)).
Qed.

Lemma graphql_unfold apiKey context options query token variables st :
  graphql E apiKey context options query token variables st =
  let (l, st0) := context_or_new context st in
  match getToken E apiKey (Some l) options token st0 with
  | (Return r, st1) =>
    match truthy (Some (result_token r)) with
    | None => (Throw (Error "grapql failed to get a token"), st1)
    | Some tokenToUse =>
      match heap st1 !! l with
      | None => (Wrong, st1)
      | Some c =>
        let u := interpolate (integrationUrl E options) +:+ "/graphql" in
        let o := graphql_requestOptions tokenToUse options query variables in
        (graphql_result E l (got_post E u o),
         counted set_ethosGraphQLCount ethosGraphQLCount l c
           {| site := GraphqlRequest; url := u; request := o |} st1)
      end
    end
  | (Throw e, st1) => (Throw e, st1)
  | (Wrong, st1) => (Wrong, st1)
  end.
Proof.
  unfold graphql. rewrite (bind_Return _ _ _ _ _ (default_context_run context st)).
  destruct (context_or_new context st) as [l st0]. simpl fst; simpl snd.
  destruct (getToken E apiKey (Some l) options token st0) as [[r|e|] st1] eqn:Htok;
    [|by run_bind..].
  run_bind. destruct (truthy (Some (result_token r))) as [t|]; [|done].
  rewrite buildUrl_graphql. run_bind.
  destruct (heap st1 !! l) as [c|] eqn:Hl; [|by run_bind].
  run_bind. run_bind.
  unfold bind, post_request, graphql_result, parse, counted, IntegrationError.
  destruct (got_post E _ _) as [response|e]; [|done].
  case_decide; [|done]. by destruct (JSON_parse E (body response)).
Qed.

(** *** What [getToken] may change *)

(** Every run of [getToken] on a context reference leaves the heap as it
    is or replaces the context by one with the same counters, issues at
    most the authentication exchange, and returns the reference it got. *)
Lemma getToken_shape apiKey l options token st out st' :
  getToken E apiKey (Some l) options token st = (out, st') →
  (heap st' = heap st
   ∨ ∃ c c', heap st !! l = Some c ∧ same_counters c c'
             ∧ heap st' = <[l := c']> (heap st))
  ∧ (calls st' = calls st
     ∨ ∃ key, truthy token = None ∧ truthy apiKey = Some key
              ∧ calls st' = (calls st ++ [auth_call E key options])%list)
  ∧ (∀ r, out = Return r → result_context r = l)
  ∧ (truthy token ≠ None → st' = st).
Proof.
  intros Hrun.
  destruct (truthy token) as [t|] eqn:Htok.
  { rewrite (getToken_supplied _ _ _ _ t) in Hrun by done.
    simpl in Hrun. apply pair_equal_spec in Hrun as [<- <-]. naive_solver. }
  destruct (heap st !! l) as [c|] eqn:Hl; last first.
  { unfold getToken in Hrun. rewrite (bind_Return _ _ _ l st) in Hrun by done.
    rewrite Htok in Hrun. rewrite (bind_Wrong _ _ _ st) in Hrun by by apply load_None.
    apply pair_equal_spec in Hrun as [<- <-]. naive_solver. }
  destruct (getToken_lookup apiKey l options token st c Htok Hl)
    as (Hl0 & Hhit & Hmissing & Hmiss).
  assert (Hsame : same_counters c (initialised c)) by done.
  destruct (decide (usable (Date_getTime E)
                      (default ∅ (tokensByApiKey c) !! property_key apiKey)))
    as [Hu|Hu].
  { destruct (Hhit Hu) as (cached & _ & Heq). rewrite Heq in Hrun.
    apply pair_equal_spec in Hrun as [<- <-]. naive_solver. }
  destruct (truthy apiKey) as [key|] eqn:Hkey.
  - specialize (Hmiss Hu key eq_refl). cbv zeta in Hmiss.
    destruct (got_post E _ _) as [response|e].
    + case_decide; rewrite Hmiss in Hrun; apply pair_equal_spec in Hrun as [<- <-].
      * split; [right; exists c; eexists|naive_solver].
        split; [done|]. split; [|apply list_insert_insert_eq]. done.
      * naive_solver.
    + rewrite Hmiss in Hrun. apply pair_equal_spec in Hrun as [<- <-]. naive_solver.
  - rewrite (Hmissing Hu eq_refl) in Hrun. apply pair_equal_spec in Hrun as [<- <-]. naive_solver.
Qed.

(** *** A supplied token *)

Lemma untouched_refl st : untouched_by_auth st st.
Proof. done. Qed.

Lemma untouched_trans st1 st2 st3 :
  untouched_by_auth st1 st2 → untouched_by_auth st2 st3 → untouched_by_auth st1 st3.
Proof. intros [H1 H2] [H3 H4]. split; [congruence|]. intros. by rewrite H4. Qed.

Lemma untouched_context_or_new context st :
  untouched_by_auth st (context_or_new context st).2.
Proof.
  destruct context as [l|]; [done|]. split; [done|]. intros l key.
  unfold cache_entry. simpl.
  destruct (decide (l < length (heap st))%nat) as [Hlt|Hge].
  - by rewrite lookup_app_l.
  - rewrite (lookup_ge_None_2 (heap st)) by lia.
    destruct (decide (l = length (heap st))) as [->|Hne].
    + by rewrite list_lookup_middle.
    + rewrite lookup_ge_None_2; [done|]. rewrite length_app. simpl. lia.
Qed.

Lemma untouched_counted set count l c call st :
  (∀ n c, tokensByApiKey (set n c) = tokensByApiKey c) →
  site call ≠ AuthExchange →
  heap st !! l = Some c →
  untouched_by_auth st (counted set count l c call st).
Proof.
  intros Hset Hsite Hl. split.
  - unfold auth_exchanges, counted. simpl. rewrite filter_app.
    rewrite (filter_cons_False _ call) by done. by rewrite filter_nil, app_nil_r.
  - intros l' key. unfold cache_entry, counted. simpl.
    destruct (decide (l' = l)) as [->|Hne].
    + rewrite list_lookup_insert_eq by by eapply lookup_lt_Some.
      rewrite Hl. simpl. by rewrite Hset.
    + by rewrite list_lookup_insert_ne.
Qed.

(** C4. With a supplied token (one that passes the guard [if (token)]),
    [getToken] returns that token and the supplied context and changes
    nothing; [getToken], [get], [post] and [graphql] add no authentication
    exchange to the HTTP calls and write no cache entry, whatever the state
    of the context. *)
Theorem supplied_token_bypass (apiKey base : option string) (context : option loc)
    (data : value) (id resource : option string)
    (searchParams : option (gmap string value)) (token : option string)
    (options : option Options) (query variables : value) (st : State) (t : string) :
  truthy token = Some t →
  token = Some t
  ∧ (∀ l, context = Some l →
       getToken E apiKey context options token st
         = (Return {| result_context := l; result_token := t |}, st))
  ∧ untouched_by_auth st (getToken E apiKey context options token st).2
  ∧ untouched_by_auth st
      (get E apiKey base context id resource searchParams token options st).2
  ∧ untouched_by_auth st
      (post E apiKey base context data id resource searchParams token options st).2
  ∧ untouched_by_auth st
      (graphql E apiKey context options query token variables st).2.
Proof.
  intros Htok.
  assert (Hget : ∀ l st0, getToken E apiKey (Some l) options token st0
            = (Return {| result_context := l; result_token := t |}, st0)).
  { intros. by rewrite (getToken_supplied _ _ _ _ t). }
  assert (Ht : truthy (Some t) = Some t).
  { apply truthy_nonempty. by apply truthy_Some in Htok as [_ ?]. }
  pose proof (untouched_context_or_new context st) as Hnew.
  split; [by apply truthy_Some in Htok as [? _]|].
  split; [by intros l ->|].
  split.
  { rewrite (getToken_supplied _ _ _ _ t) by done.
    rewrite (bind_Return _ _ _ _ _ (default_context_run context st)). done. }
  split; [|split].
  - rewrite get_unfold. destruct (context_or_new context st) as [l st0].
    destruct (truthy resource); [|done]. rewrite Hget. simpl result_token.
    rewrite Ht. destruct (buildUrl E _ id options resource); [done|].
    destruct (heap st0 !! l) eqn:Hl; [|done].
    eapply untouched_trans; [exact Hnew|]. by apply untouched_counted.
  - rewrite post_unfold. destruct (context_or_new context st) as [l st0].
    destruct (truthy resource); [|done]. rewrite Hget. simpl result_token.
    rewrite Ht. destruct (buildUrl E _ id options resource); [done|].
    destruct (heap st0 !! l) eqn:Hl; [|done].
    eapply untouched_trans; [exact Hnew|]. by apply untouched_counted.
  - rewrite graphql_unfold. destruct (context_or_new context st) as [l st0].
    rewrite Hget. simpl result_token. rewrite Ht.
    destruct (heap st0 !! l) eqn:Hl; [|done].
    eapply untouched_trans; [exact Hnew|]. by apply untouched_counted.
Qed.

(** *** The wrappers once the token is resolved *)

Lemma context_or_new_run context st l st0 :
  default_context context st = (Return l, st0) → context_or_new context st = (l, st0).
Proof.
  rewrite default_context_run. intros [= <- <-].
  by destruct (context_or_new context st).
Qed.

Lemma getToken_valid apiKey l options token st out st' l' :
  getToken E apiKey (Some l) options token st = (out, st') →
  is_Some (heap st !! l') → is_Some (heap st' !! l').
Proof.
  intros Hrun Hl'. destruct (getToken_shape _ _ _ _ _ _ _ Hrun) as ([->|Hh] & _); [done|].
  destruct Hh as (c & c' & _ & _ & ->).
  apply lookup_lt_is_Some. rewrite length_insert. by apply lookup_lt_is_Some.
Qed.

Lemma get_resolved apiKey base context id resource searchParams token options
    st l st0 r st1 u :
  truthy resource ≠ None →
  default_context context st = (Return l, st0) →
  is_Some (heap st0 !! l) →
  getToken E apiKey (Some l) options token st0 = (Return r, st1) →
  result_token r ≠ "" →
  buildUrl E (Some (default "api" base)) id options resource = inr u →
  let o := get_requestOptions (result_token r) options
             (stringify_criteria E (default ∅ searchParams)) in
  ∃ c, heap st1 !! l = Some c
    ∧ get E apiKey base context id resource searchParams token options st
      = (Return (get_result E l (got_get E u o)),
         counted set_ethosGetCount ethosGetCount l c
           {| site := GetRequest; url := u; request := o |} st1).
Proof.
  intros Hres Hd Hvalid Htok Hr Hurl o.
  destruct (getToken_valid _ _ _ _ _ _ _ l Htok Hvalid) as [c Hc].
  exists c. split; [done|].
  rewrite get_unfold, (context_or_new_run _ _ _ _ Hd).
  destruct (truthy resource); [|done].
  by rewrite Htok, (truthy_nonempty _ Hr), Hurl, Hc.
Qed.

Lemma post_resolved apiKey base context data id resource searchParams token options
    st l st0 r st1 u :
  truthy resource ≠ None →
  default_context context st = (Return l, st0) →
  is_Some (heap st0 !! l) →
  getToken E apiKey (Some l) options token st0 = (Return r, st1) →
  result_token r ≠ "" →
  buildUrl E (Some (default "api" base)) id options resource = inr u →
  let o := post_requestOptions (result_token r) options
             (stringify_criteria E (default ∅ searchParams)) data in
  ∃ c, heap st1 !! l = Some c
    ∧ post E apiKey base context data id resource searchParams token options st
      = (Return (post_result E l (got_post E u o)),
         counted set_ethosPostCount ethosPostCount l c
           {| site := PostRequest; url := u; request := o |} st1).
Proof.
  intros Hres Hd Hvalid Htok Hr Hurl o.
  destruct (getToken_valid _ _ _ _ _ _ _ l Htok Hvalid) as [c Hc].
  exists c. split; [done|].
  rewrite post_unfold, (context_or_new_run _ _ _ _ Hd).
  destruct (truthy resource); [|done].
  by rewrite Htok, (truthy_nonempty _ Hr), Hurl, Hc.
Qed.

Lemma graphql_resolved apiKey context options query token variables st l st0 r st1 :
  default_context context st = (Return l, st0) →
  is_Some (heap st0 !! l) →
  getToken E apiKey (Some l) options token st0 = (Return r, st1) →
  result_token r ≠ "" →
  let u := interpolate (integrationUrl E options) +:+ "/graphql" in
  let o := graphql_requestOptions (result_token r) options query variables in
  ∃ c, heap st1 !! l = Some c
    ∧ graphql E apiKey context options query token variables st
      = (graphql_result E l (got_post E u o),
         counted set_ethosGraphQLCount ethosGraphQLCount l c
           {| site := GraphqlRequest; url := u; request := o |} st1).
Proof.
  intros Hd Hvalid Htok Hr u o.
  destruct (getToken_valid _ _ _ _ _ _ _ l Htok Hvalid) as [c Hc].
  exists c. split; [done|].
  rewrite graphql_unfold, (context_or_new_run _ _ _ _ Hd).
  by rewrite Htok, (truthy_nonempty _ Hr), Hc.
Qed.

(** C5. A [get] or [post] call with a non-empty resource whose token
    resolution returns a usable token, for the request at the URL that
    [buildUrl] gives: on status 200 ([get]) or 200 or 201 ([post]) with a
    body that parses, the call returns [{context, data}] with the parsed
    body; on any other status, and when the client throws, it returns
    [{context, error}].  In every case the call returns: nothing is thrown. *)
Theorem get_post_results (apiKey base : option string) (context : option loc)
    (data : value) (id resource : option string)
    (searchParams : option (gmap string value)) (token : option string)
    (options : option Options) (st st0 st1 : State) (l : loc) (r : TokenResult)
    (u : string) :
  truthy resource ≠ None →
  default_context context st = (Return l, st0) →
  is_Some (heap st0 !! l) →
  getToken E apiKey (Some l) options token st0 = (Return r, st1) →
  result_token r ≠ "" →
  buildUrl E (Some (default "api" base)) id options resource = inr u →
  let params := stringify_criteria E (default ∅ searchParams) in
  let get_answer := got_get E u (get_requestOptions (result_token r) options params) in
  let post_answer :=
    got_post E u (post_requestOptions (result_token r) options params data) in
  let get_run := get E apiKey base context id resource searchParams token options st in
  let post_run :=
    post E apiKey base context data id resource searchParams token options st in
  ((∃ result, get_run.1 = Return result)
   ∧ (∀ response parsed,
        get_answer = Responds response → statusCode response = 200 →
        JSON_parse E (body response) = Some parsed →
        get_run.1 = Return (DataResult l parsed))
   ∧ (∀ response,
        get_answer = Responds response → statusCode response ≠ 200 →
        ∃ error, get_run.1 = Return (ErrorResult l error))
   ∧ (∀ error, get_answer = Fails error → get_run.1 = Return (ErrorResult l error)))
  ∧ ((∃ result, post_run.1 = Return result)
     ∧ (∀ response parsed,
          post_answer = Responds response →
          statusCode response = 200 ∨ statusCode response = 201 →
          JSON_parse E (body response) = Some parsed →
          post_run.1 = Return (DataResult l parsed))
     ∧ (∀ response,
          post_answer = Responds response →
          statusCode response ≠ 200 → statusCode response ≠ 201 →
          ∃ error, post_run.1 = Return (ErrorResult l error))
     ∧ (∀ error, post_answer = Fails error → post_run.1 = Return (ErrorResult l error))).
Proof.
  intros Hres Hd Hvalid Htok Hr Hurl params get_answer post_answer get_run post_run.
  destruct (get_resolved apiKey base context id resource searchParams token options
              st l st0 r st1 u Hres Hd Hvalid Htok Hr Hurl) as (cg & _ & Hg).
  destruct (post_resolved apiKey base context data id resource searchParams token
              options st l st0 r st1 u Hres Hd Hvalid Htok Hr Hurl) as (cp & _ & Hp).
  subst get_run post_run. rewrite Hg, Hp. simpl fst.
  fold params. fold get_answer. fold post_answer.
  split; (split; [by eexists|]); (split; [|split]).
  - intros response parsed -> Hs Hparse. simpl.
    by rewrite decide_True, Hparse.
  - intros response -> Hs. simpl. rewrite decide_False by done. by eexists.
  - by intros error ->.
  - intros response parsed -> Hs Hparse. simpl.
    by rewrite decide_True, Hparse.
  - intros response -> Hs Hs'. simpl.
    rewrite decide_False by (unfold OK, CREATED; tauto). by eexists.
  - by intros error ->.
Qed.

(** *** The object that [graphql] returns *)



(** C7. [buildUrl] with base api or admin returns root/base/resource,
    followed by /id exactly when an id is given (a non-empty one: the test
    is [id ? .. : ..]); with base auth or graphql it returns root/base
    whatever the resource and the id; any other base makes it throw the
    unknown-base error (the [ConfigurationError] of the specification).  The
    root is the integration URL, printed by the template literal. *)
Theorem buildUrl_cases (base : string) (id resource : option string)
    (options : option Options) :
  let root := interpolate (integrationUrl E options) in
  (base = "api" ∨ base = "admin" →
     (∀ i, truthy id = Some i →
        buildUrl E (Some base) id options resource
          = inr (root +:+ "/" +:+ base +:+ "/" +:+ interpolate resource +:+ "/" +:+ i))
     ∧ (truthy id = None →
        buildUrl E (Some base) id options resource
          = inr (root +:+ "/" +:+ base +:+ "/" +:+ interpolate resource)))
  ∧ (base = "auth" ∨ base = "graphql" →
       buildUrl E (Some base) id options resource = inr (root +:+ "/" +:+ base))
  ∧ (base ≠ "api" → base ≠ "admin" → base ≠ "auth" → base ≠ "graphql" →
       buildUrl E (Some base) id options resource = inl (ConfigurationError base)).
Proof.
  intros root. unfold buildUrl. simpl default. split; [|split].
  - intros Hbase. rewrite decide_True by tauto. split.
    + by intros i ->.
    + intros ->. by rewrite append_empty.
  - intros Hbase.
    rewrite decide_False by (intros [?|?]; destruct Hbase; by subst).
    by rewrite decide_True.
  - intros H1 H2 H3 H4.
    rewrite decide_False by tauto. by rewrite decide_False by tauto.
Qed.

(** C10. For a response with a success status whose body [JSON.parse]
    rejects: [get] and [post] catch the parse failure and return
    [{context, error}] with it, [graphql] throws it, and [getToken], which
    never parses, returns the raw body of a 200 answer as the token. *)
Theorem unparseable_body (apiKey base : option string) (context : option loc)
    (data : value) (id resource : option string)
    (searchParams : option (gmap string value)) (token : option string)
    (options : option Options) (query variables : value)
    (st st0 st1 : State) (l : loc) (r : TokenResult) (u : string) :
  truthy resource ≠ None →
  default_context context st = (Return l, st0) →
  is_Some (heap st0 !! l) →
  getToken E apiKey (Some l) options token st0 = (Return r, st1) →
  result_token r ≠ "" →
  buildUrl E (Some (default "api" base)) id options resource = inr u →
  let params := stringify_criteria E (default ∅ searchParams) in
  (∀ response,
     got_get E u (get_requestOptions (result_token r) options params)
       = Responds response →
     statusCode response = 200 →
     JSON_parse E (body response) = None →
     (get E apiKey base context id resource searchParams token options st).1
       = Return (ErrorResult l (SyntaxError (body response))))
  ∧ (∀ response,
       got_post E u (post_requestOptions (result_token r) options params data)
         = Responds response →
       statusCode response = 200 ∨ statusCode response = 201 →
       JSON_parse E (body response) = None →
       (post E apiKey base context data id resource searchParams token options st).1
         = Return (ErrorResult l (SyntaxError (body response))))
  ∧ (∀ response,
       got_post E (interpolate (integrationUrl E options) +:+ "/graphql")
         (graphql_requestOptions (result_token r) options query variables)
         = Responds response →
       statusCode response = 200 →
       JSON_parse E (body response) = None →
       (graphql E apiKey context options query token variables st).1
         = Throw (SyntaxError (body response)))
  ∧ (∀ apiKey' key l' options' token' st' c response,
       truthy token' = None →
       truthy apiKey' = Some key →
       heap st' !! l' = Some c →
       ¬ usable (Date_getTime E) (cache_entry st' l' key) →
       got_post E (url (auth_call E key options')) (request (auth_call E key options'))
         = Responds response →
       statusCode response = 200 →
       JSON_parse E (body response) = None →
       (getToken E apiKey' (Some l') options' token' st').1
         = Return {| result_context := l'; result_token := body response |}).
Proof.
  intros Hres Hd Hvalid Htok Hr Hurl params.
  destruct (get_resolved apiKey base context id resource searchParams token options
              st l st0 r st1 u Hres Hd Hvalid Htok Hr Hurl) as (cg & _ & Hg).
  destruct (post_resolved apiKey base context data id resource searchParams token
              options st l st0 r st1 u Hres Hd Hvalid Htok Hr Hurl) as (cp & _ & Hp).
  destruct (graphql_resolved apiKey context options query token variables
              st l st0 r st1 Hd Hvalid Htok Hr) as (cq & _ & Hq).
  rewrite Hg, Hp, Hq. simpl fst. fold params.
  split; [|split; [|split]].
  - intros response -> Hs Hparse. simpl. by rewrite decide_True, Hparse.
  - intros response -> Hs Hparse. simpl. by rewrite decide_True, Hparse.
  - intros response -> Hs Hparse. simpl. by rewrite decide_True, Hparse.
  - intros apiKey' key l' options' token' st' c response Htok' Hkey Hl' Hu Hgot Hs _.
    destruct (getToken_lookup apiKey' l' options' token' st' c Htok' Hl')
      as (_ & _ & _ & Hmiss).
    rewrite (property_key_truthy _ _ Hkey), <- (cache_entry_lookup st' l' c) in Hmiss
      by done.
    specialize (Hmiss Hu key Hkey). cbv zeta in Hmiss. rewrite Hgot in Hmiss.
    rewrite decide_True in Hmiss by done. by rewrite Hmiss.
Qed.

(** *** Counters *)









(** *** The context reference *)





End Claims.

(** ** The statements on the sample provider *)

Lemma getToken_cache_hit_witness :
  cache_entry (cached_state 1300000) 0%nat "K"
    = Some {| expires := 1300000; token := "cached" |}
  ∧ getToken sample_env (Some "K") (Some 0%nat) None None (cached_state 1300000)
    = (Return {| result_context := 0%nat; result_token := "cached" |},
       cached_state 1300000).
Proof.
  split; [reflexivity|].
  apply (getToken_cache_hit sample_env (Some "K") 0%nat None None
           (cached_state 1300000) {| expires := 1300000; token := "cached" |}).
  - reflexivity.
  - reflexivity.
  - reflexivity.
Defined.

Lemma getToken_cache_miss_witness :
  ¬ usable (Date_getTime sample_env) (cache_entry (cached_state 1020000) 0%nat "K")
  ∧ ∃ out st',
      getToken sample_env (Some "K") (Some 0%nat) None None (cached_state 1020000)
        = (out, st')
      ∧ calls st' = [auth_call sample_env "K" None]
      ∧ out = Return {| result_context := 0%nat; result_token := "tok123" |}
      ∧ cache_entry st' 0%nat "K" = Some {| expires := 1300000; token := "tok123" |}.
Proof.
  assert (Hu : ¬ usable (Date_getTime sample_env)
                 (cache_entry (cached_state 1020000) 0%nat "K")).
  { vm_compute. intros H. discriminate H. }
  split; [exact Hu|].
  destruct (getToken_cache_miss sample_env (Some "K") "K" 0%nat None None
              (cached_state 1020000)
              (set_tokensByApiKey
                 {[ "K" := {| expires := 1020000; token := "cached" |} ]} empty_object)
              eq_refl eq_refl eq_refl Hu) as (out & st' & Hrun & Hcalls & Hok).
  exists out, st'. split; [exact Hrun|]. split; [exact Hcalls|].
  exact (Hok {| statusCode := 200; body := "tok123" |} eq_refl eq_refl).
Defined.

Lemma getToken_failures_witness :
  (∃ st', getToken sample_env None (Some 0%nat) None None fresh_state
            = (Throw (InvalidArgument "getToken missing apiKey"), st')
          ∧ calls st' = []
          ∧ ∀ k, cache_entry st' 0%nat k = cache_entry fresh_state 0%nat k)
  ∧ (∃ st', getToken sample_env (Some "K") (Some 0%nat) (at_root "https://down")
              None fresh_state
            = (Throw (AuthenticationError 401), st')
          ∧ ∀ k, cache_entry st' 0%nat k = cache_entry fresh_state 0%nat k).
Proof.
  assert (Hu : ∀ apiKey, ¬ usable (Date_getTime sample_env)
                 (cache_entry fresh_state 0%nat (property_key apiKey))).
  { intros apiKey. unfold cache_entry. simpl. tauto. }
  split.
  - exact (proj1 (getToken_failures sample_env None 0%nat None None fresh_state
                    empty_object eq_refl eq_refl (Hu None)) eq_refl).
  - exact (proj2 (getToken_failures sample_env (Some "K") 0%nat (at_root "https://down")
                    None fresh_state empty_object eq_refl eq_refl (Hu (Some "K")))
             "K" {| statusCode := 401; body := "denied" |} eq_refl eq_refl
             ltac:(discriminate)).
Defined.

Lemma supplied_token_bypass_witness :
  getToken sample_env (Some "K") (Some 0%nat) None (Some "t") (cached_state 1020000)
    = (Return {| result_context := 0%nat; result_token := "t" |}, cached_state 1020000)
  ∧ untouched_by_auth (cached_state 1020000)
      (get sample_env (Some "K") None (Some 0%nat) None (Some "students") None
         (Some "t") None (cached_state 1020000)).2
  ∧ untouched_by_auth (cached_state 1020000)
      (post sample_env (Some "K") None (Some 0%nat) VNull None (Some "students") None
         (Some "t") None (cached_state 1020000)).2
  ∧ untouched_by_auth (cached_state 1020000)
      (graphql sample_env (Some "K") (Some 0%nat) None VNull (Some "t") VNull
         (cached_state 1020000)).2.
Proof.
  destruct (supplied_token_bypass sample_env (Some "K") None (Some 0%nat) VNull None
              (Some "students") None (Some "t") None VNull VNull
              (cached_state 1020000) "t" eq_refl)
    as (_ & Htoken & _ & Hget & Hpost & Hgraphql).
  split; [exact (Htoken 0%nat eq_refl)|]. split; [exact Hget|].
  split; [exact Hpost|exact Hgraphql].
Defined.

Lemma get_post_results_witness :
  (get sample_env None None (Some 0%nat) None (Some "students") None (Some "t") None
     fresh_state).1 = Return (DataResult 0%nat (VObj []))
  ∧ (post sample_env None None (Some 0%nat) VNull None (Some "students") None
       (Some "t") None fresh_state).1 = Return (DataResult 0%nat (VObj []))
  ∧ (∃ error,
       (get sample_env None None (Some 0%nat) (Some "123") (Some "students") None
          (Some "t") None fresh_state).1 = Return (ErrorResult 0%nat error))
  ∧ (post sample_env None None (Some 0%nat) VNull (Some "123") (Some "students") None
       (Some "t") None fresh_state).1
    = Return (ErrorResult 0%nat (RequestError "ECONNREFUSED")).
Proof.
  pose proof (get_post_results sample_env None None (Some 0%nat) VNull None
                (Some "students") None (Some "t") None fresh_state fresh_state
                fresh_state 0%nat {| result_context := 0%nat; result_token := "t" |}
                "https://ethos/api/students"
                ltac:(discriminate) eq_refl ltac:(by eexists) eq_refl
                ltac:(discriminate) eq_refl) as Hplain.
  pose proof (get_post_results sample_env None None (Some 0%nat) VNull (Some "123")
                (Some "students") None (Some "t") None fresh_state fresh_state
                fresh_state 0%nat {| result_context := 0%nat; result_token := "t" |}
                "https://ethos/api/students/123"
                ltac:(discriminate) eq_refl ltac:(by eexists) eq_refl
                ltac:(discriminate) eq_refl) as Hid.
  cbv zeta in Hplain, Hid.
  destruct Hplain as ((_ & Hget200 & _) & (_ & Hpost201 & _)).
  destruct Hid as ((_ & _ & Hget404 & _) & (_ & _ & _ & Hpostfail)).
  split; [|split; [|split]].
  - exact (Hget200 {| statusCode := 200; body := "{}" |} (VObj [])
             eq_refl eq_refl eq_refl).
  - exact (Hpost201 {| statusCode := 201; body := "{}" |} (VObj [])
             eq_refl (or_intror eq_refl) eq_refl).
  - exact (Hget404 {| statusCode := 404; body := "not found" |} eq_refl
             ltac:(discriminate)).
  - exact (Hpostfail (RequestError "ECONNREFUSED") eq_refl).
Defined.


Lemma buildUrl_cases_witness :
  buildUrl sample_env (Some "api") (Some "123") None (Some "students")
    = inr "https://ethos/api/students/123"
  ∧ buildUrl sample_env (Some "admin") None None (Some "students")
    = inr "https://ethos/admin/students"
  ∧ buildUrl sample_env (Some "auth") (Some "123") None (Some "students")
    = inr "https://ethos/auth"
  ∧ buildUrl sample_env (Some "unknown") None None None
    = inl (ConfigurationError "unknown").
Proof.
  split; [|split; [|split]].
  - exact (proj1 (proj1 (buildUrl_cases sample_env "api" (Some "123")
                           (Some "students") None) (or_introl eq_refl))
             "123" eq_refl).
  - exact (proj2 (proj1 (buildUrl_cases sample_env "admin" None
                           (Some "students") None) (or_intror eq_refl))
             eq_refl).
  - exact (proj1 (proj2 (buildUrl_cases sample_env "auth" (Some "123")
                           (Some "students") None)) (or_introl eq_refl)).
  - exact (proj2 (proj2 (buildUrl_cases sample_env "unknown" None None None))
             ltac:(discriminate) ltac:(discriminate) ltac:(discriminate)
             ltac:(discriminate)).
Defined.





Lemma unparseable_body_witness :
  JSON_parse sample_env "<html>" = None
  ∧ (get sample_env None None (Some 0%nat) None (Some "students") None (Some "t")
       (at_root "https://html") fresh_state).1
    = Return (ErrorResult 0%nat (SyntaxError "<html>"))
  ∧ (post sample_env None None (Some 0%nat) VNull None (Some "students") None (Some "t")
       (at_root "https://html") fresh_state).1
    = Return (ErrorResult 0%nat (SyntaxError "<html>"))
  ∧ (graphql sample_env None (Some 0%nat) (at_root "https://html") VNull (Some "t")
       VNull fresh_state).1
    = Throw (SyntaxError "<html>")
  ∧ (getToken sample_env (Some "K") (Some 0%nat) (at_root "https://html") None
       fresh_state).1
    = Return {| result_context := 0%nat; result_token := "<html>" |}.
Proof.
  destruct (unparseable_body sample_env None None (Some 0%nat) VNull None
              (Some "students") None (Some "t") (at_root "https://html") VNull VNull
              fresh_state fresh_state fresh_state 0%nat
              {| result_context := 0%nat; result_token := "t" |}
              "https://html/api/students"
              ltac:(discriminate) eq_refl ltac:(by eexists) eq_refl
              ltac:(discriminate) eq_refl)
    as (Hget & Hpost & Hgraphql & HgetToken).
  split; [reflexivity|]. split; [|split; [|split]].
  - exact (Hget {| statusCode := 200; body := "<html>" |} eq_refl eq_refl eq_refl).
  - exact (Hpost {| statusCode := 200; body := "<html>" |} eq_refl
             (or_introl eq_refl) eq_refl).
  - exact (Hgraphql {| statusCode := 200; body := "<html>" |} eq_refl eq_refl eq_refl).
  - exact (HgetToken (Some "K") "K" 0%nat (at_root "https://html") None fresh_state
             empty_object {| statusCode := 200; body := "<html>" |}
             eq_refl eq_refl eq_refl ltac:(unfold cache_entry; simpl; tauto)
             eq_refl eq_refl eq_refl).
Defined.

(** ** Further properties of the operations *)

(** *** Support *)

Section ExtrasSupport.
Context (E : Env).

Lemma getToken_hit apiKey l options token st cached :
  truthy token = None →
  cache_entry st l (property_key apiKey) = Some cached →
  expires cached - 30 * 1000 > Date_getTime E →
  getToken E apiKey (Some l) options token st
    = (Return {| result_context := l; result_token := Cache.token cached |}, st).
Proof.
  intros Htok Hentry Hexp.
  destruct (heap st !! l) as [c|] eqn:Hl;
    [|by unfold cache_entry in Hentry; rewrite Hl in Hentry].
  destruct (tokensByApiKey c) as [m|] eqn:Hc;
    [|by unfold cache_entry in Hentry; rewrite Hl in Hentry;
         simpl in Hentry; rewrite Hc in Hentry].
  destruct (getToken_lookup E apiKey l options token st c Htok Hl) as (_ & Hhit & _).
  rewrite <- (cache_entry_lookup st l c) in Hhit by done.
  rewrite Hentry in Hhit. destruct (Hhit Hexp) as (? & [= <-] & ->).
  rewrite (initialised_id c m) by done. by rewrite with_heap_id.
Qed.

Lemma getToken_exchanged apiKey key l options token st c response :
  truthy token = None →
  truthy apiKey = Some key →
  heap st !! l = Some c →
  ¬ usable (Date_getTime E) (cache_entry st l key) →
  got_post E (url (auth_call E key options)) (request (auth_call E key options))
    = Responds response →
  statusCode response = 200 →
  getToken E apiKey (Some l) options token st
    = (Return {| result_context := l; result_token := body response |},
       exchanged E key options l c response st).
Proof.
  intros Htok Hkey Hl Hu Hgot Hs.
  destruct (getToken_lookup E apiKey l options token st c Htok Hl) as (_ & _ & _ & Hmiss).
  rewrite (property_key_truthy _ _ Hkey), <- (cache_entry_lookup st l c) in Hmiss by done.
  specialize (Hmiss Hu key Hkey). cbv zeta in Hmiss. rewrite Hgot in Hmiss.
  by rewrite decide_True in Hmiss.
Qed.

Lemma exchanged_calls key options l c response st :
  calls (exchanged E key options l c response st)
    = (calls st ++ [auth_call E key options])%list.
Proof. reflexivity. Qed.

Lemma exchanged_entry key options l c response st :
  heap st !! l = Some c →
  cache_entry (exchanged E key options l c response st) l key
    = Some {| expires := Date_getTime E + 300000; token := body response |}.
Proof.
  intros Hl. unfold cache_entry, exchanged. simpl.
  rewrite list_lookup_insert_eq
    by (rewrite length_insert; by eapply lookup_lt_Some).
  simpl. by rewrite lookup_insert_eq.
Qed.

Lemma exchanged_other key options l c response st l' k :
  heap st !! l = Some c →
  (l', k) ≠ (l, key) →
  cache_entry (exchanged E key options l c response st) l' k = cache_entry st l' k.
Proof.
  intros Hl Hne. unfold cache_entry, exchanged. simpl.
  destruct (decide (l' = l)) as [->|Hl'].
  - rewrite list_lookup_insert_eq
      by (rewrite length_insert; by eapply lookup_lt_Some).
    rewrite Hl. simpl. rewrite lookup_insert_ne by congruence.
    destruct (tokensByApiKey c); [done|]. simpl. by rewrite lookup_empty.
  - by rewrite !list_lookup_insert_ne.
Qed.

End ExtrasSupport.

(** *** Token reuse *)

(** X1. A token obtained by an authentication exchange is reused: after
    [getToken] fetched a token at time [now], a later call for the same key
    on the same context, at any time strictly before [now + 270000] and with
    any options, returns that token from the cache and leaves the state as
    it is (no HTTP call); from [now + 270000] on it issues a new
    authentication exchange. *)
Theorem fetched_token_reused (E E2 : Env) (apiKey : option string) (key : string)
    (l : loc) (options options2 : option Options) (token token2 : option string)
    (st : State) (c : ContextObject) (response : Response) :
  truthy token = None →
  truthy token2 = None →
  truthy apiKey = Some key →
  heap st !! l = Some c →
  ¬ usable (Date_getTime E) (cache_entry st l key) →
  got_post E (url (auth_call E key options)) (request (auth_call E key options))
    = Responds response →
  statusCode response = 200 →
  ∃ st1,
    getToken E apiKey (Some l) options token st
      = (Return {| result_context := l; result_token := body response |}, st1)
    ∧ (Date_getTime E2 < Date_getTime E + 270000 →
       getToken E2 apiKey (Some l) options2 token2 st1
         = (Return {| result_context := l; result_token := body response |}, st1))
    ∧ ((Date_getTime E + 270000 ≤ Date_getTime E2)%Z →
       calls (getToken E2 apiKey (Some l) options2 token2 st1).2
         = (calls st1 ++ [auth_call E2 key options2])%list).
Proof.
  intros Htok Htok2 Hkey Hl Hu Hgot Hs.
  exists (exchanged E key options l c response st).
  split; [by apply getToken_exchanged|].
  pose proof (exchanged_entry E key options l c response st Hl) as Hentry.
  split.
  - intros Hnow.
    apply (getToken_hit E2 apiKey l options2 token2 _
             {| expires := Date_getTime E + 300000; token := body response |}).
    + done.
    + by rewrite (property_key_truthy _ _ Hkey).
    + simpl. lia.
  - intros Hnow.
    assert (is_Some (heap (exchanged E key options l c response st) !! l)) as [c1 Hl1].
    { apply lookup_lt_is_Some. unfold exchanged. simpl. rewrite !length_insert.
      by eapply lookup_lt_Some. }
    destruct (getToken_lookup E2 apiKey l options2 token2 _ c1 Htok2 Hl1)
      as (_ & _ & _ & Hmiss).
    rewrite (property_key_truthy _ _ Hkey), <- (cache_entry_lookup _ l c1) in Hmiss
      by done.
    rewrite Hentry in Hmiss.
    assert (Hu2 : ¬ usable (Date_getTime E2)
              (Some {| expires := Date_getTime E + 300000; token := body response |})).
    { simpl. lia. }
    specialize (Hmiss Hu2 key Hkey). cbv zeta in Hmiss.
    destruct (got_post E2 _ _) as [r2|e2]; [case_decide|]; by rewrite Hmiss.
Qed.

(** X2. Whenever [getToken] returns without a supplied token, the cache of
    the context holds, under the key it looked up, an entry with the token
    it returned, and that entry is usable at the time of the call. *)
Theorem returned_token_cached (E : Env) (apiKey : option string) (l : loc)
    (options : option Options) (token : option string) (st st' : State)
    (r : TokenResult) :
  truthy token = None →
  getToken E apiKey (Some l) options token st = (Return r, st') →
  ∃ cached,
    cache_entry st' l (property_key apiKey) = Some cached
    ∧ Cache.token cached = result_token r
    ∧ usable (Date_getTime E) (Some cached).
Proof.
  intros Htok Hrun.
  destruct (heap st !! l) as [c|] eqn:Hl; last first.
  { unfold getToken in Hrun. rewrite (bind_Return _ _ _ l st) in Hrun by done.
    rewrite Htok in Hrun.
    by rewrite (bind_Wrong _ _ _ st) in Hrun by by apply load_None. }
  destruct (getToken_lookup E apiKey l options token st c Htok Hl)
    as (Hl0 & Hhit & Hmissing & Hmiss).
  destruct (decide (usable (Date_getTime E)
                      (default ∅ (tokensByApiKey c) !! property_key apiKey)))
    as [Hu|Hu].
  - destruct (Hhit Hu) as (cached & Hentry & Heq). rewrite Heq in Hrun.
    injection Hrun as <- <-. exists cached.
    rewrite cache_entry_initialised, (cache_entry_lookup st l c) by done.
    split; [done|]. split; [done|]. by rewrite <- Hentry.
  - destruct (truthy apiKey) as [key|] eqn:Hkey;
      [|by rewrite (Hmissing Hu eq_refl) in Hrun].
    specialize (Hmiss Hu key eq_refl). cbv zeta in Hmiss.
    destruct (got_post E _ _) as [response|e]; [|by rewrite Hmiss in Hrun].
    case_decide; rewrite Hmiss in Hrun; [|done]. injection Hrun as <- <-.
    eexists. rewrite (property_key_truthy _ _ Hkey).
    split; [by apply (exchanged_entry E key options l c response st)|].
    split; [done|]. simpl. lia.
Qed.

Lemma returned_token_cached_witness :
  ∃ cached,
    cache_entry (getToken sample_env (Some "K") (Some 0%nat) None None fresh_state).2
      0%nat "K" = Some cached
    ∧ Cache.token cached = "tok123"
    ∧ usable 1000000 (Some cached).
Proof.
  exact (returned_token_cached sample_env (Some "K") 0%nat None None fresh_state
           (getToken sample_env (Some "K") (Some 0%nat) None None fresh_state).2
           {| result_context := 0%nat; result_token := "tok123" |}
           eq_refl eq_refl).
Defined.

Section CacheGrowth.
Context (E : Env).

Lemma getToken_cache_other apiKey l options token st l' k :
  (l', k) ≠ (l, property_key apiKey) →
  cache_entry (getToken E apiKey (Some l) options token st).2 l' k
    = cache_entry st l' k.
Proof.
  intros Hne.
  destruct (truthy token) as [t|] eqn:Htok.
  { by rewrite (getToken_supplied E _ _ _ _ t). }
  destruct (heap st !! l) as [c|] eqn:Hl; last first.
  { unfold getToken. rewrite (bind_Return _ _ _ l st) by done. rewrite Htok.
    by rewrite (bind_Wrong _ _ _ st) by by apply load_None. }
  destruct (getToken_lookup E apiKey l options token st c Htok Hl)
    as (Hl0 & Hhit & Hmissing & Hmiss).
  destruct (decide (usable (Date_getTime E)
                      (default ∅ (tokensByApiKey c) !! property_key apiKey)))
    as [Hu|Hu].
  { destruct (Hhit Hu) as (cached & _ & ->). by apply cache_entry_initialised. }
  destruct (truthy apiKey) as [key|] eqn:Hkey.
  - rewrite (property_key_truthy _ _ Hkey) in Hne.
    specialize (Hmiss Hu key eq_refl). cbv zeta in Hmiss.
    destruct (got_post E _ _) as [response|e]; [case_decide|]; rewrite Hmiss; simpl snd.
    + by apply (exchanged_other E key options l c response st).
    + rewrite cache_entry_with_call. by apply cache_entry_initialised.
    + rewrite cache_entry_with_call. by apply cache_entry_initialised.
  - rewrite (Hmissing Hu eq_refl). by apply cache_entry_initialised.
Qed.

Lemma getToken_cache_kept apiKey l options token st l' k :
  is_Some (cache_entry st l' k) →
  is_Some (cache_entry (getToken E apiKey (Some l) options token st).2 l' k).
Proof.
  intros Hsome.
  destruct (decide ((l', k) = (l, property_key apiKey))) as [[= -> ->]|Hne];
    [|by rewrite getToken_cache_other].
  destruct (truthy token) as [t|] eqn:Htok.
  { by rewrite (getToken_supplied E _ _ _ _ t). }
  destruct (heap st !! l) as [c|] eqn:Hl; last first.
  { unfold cache_entry in Hsome. rewrite Hl in Hsome. by destruct Hsome. }
  destruct (getToken_lookup E apiKey l options token st c Htok Hl)
    as (Hl0 & Hhit & Hmissing & Hmiss).
  destruct (decide (usable (Date_getTime E)
                      (default ∅ (tokensByApiKey c) !! property_key apiKey)))
    as [Hu|Hu].
  { destruct (Hhit Hu) as (cached & _ & ->). simpl snd.
    by rewrite cache_entry_initialised. }
  destruct (truthy apiKey) as [key|] eqn:Hkey.
  - rewrite (property_key_truthy _ _ Hkey) in *.
    specialize (Hmiss Hu key eq_refl). cbv zeta in Hmiss.
    destruct (got_post E _ _) as [response|e]; [case_decide|]; rewrite Hmiss; simpl snd.
    + eexists. exact (exchanged_entry E key options l c response st Hl).
    + by rewrite cache_entry_with_call, cache_entry_initialised.
    + by rewrite cache_entry_with_call, cache_entry_initialised.
  - rewrite (Hmissing Hu eq_refl). simpl snd. by rewrite cache_entry_initialised.
Qed.
End CacheGrowth.

Section FinalStates.
Context (E : Env).

Lemma getToken_default apiKey options token st :
  getToken E apiKey None options token st
    = getToken E apiKey (Some (length (heap st))) options token
        (with_heap (heap st ++ [empty_object]) st).
Proof. reflexivity. Qed.

(** Where a wrapper may stop: after the parameter defaults, after token
    resolution, or after its own request. *)
Lemma get_final_state apiKey base context id resource searchParams token options st :
  let l := (context_or_new context st).1 in
  let st0 := (context_or_new context st).2 in
  let st1 := (getToken E apiKey (Some l) options token st0).2 in
  let st' := (get E apiKey base context id resource searchParams token options st).2 in
  st' = st0 ∨ st' = st1
  ∨ ∃ c call, heap st1 !! l = Some c ∧ site call = GetRequest
      ∧ st' = counted set_ethosGetCount ethosGetCount l c call st1.
Proof.
  intros l st0 st1 st'. subst st'. rewrite get_unfold. subst l st0 st1.
  destruct (context_or_new context st) as [l st0]. cbn [fst snd].
  destruct (truthy resource); [|by left].
  destruct (getToken E apiKey (Some l) options token st0) as [[r|e|] st1];
    cbn [snd]; [|right; left; reflexivity|right; left; reflexivity].
  destruct (truthy (Some (result_token r))); [|right; left; reflexivity].
  destruct (buildUrl E _ id options resource); [right; left; reflexivity|].
  destruct (heap st1 !! l) as [c|] eqn:Hl; [|right; left; reflexivity].
  right; right. eexists c, _. split; [done|]. split; [|reflexivity]. done.
Qed.

Lemma post_final_state apiKey base context data id resource searchParams token options st :
  let l := (context_or_new context st).1 in
  let st0 := (context_or_new context st).2 in
  let st1 := (getToken E apiKey (Some l) options token st0).2 in
  let st' :=
    (post E apiKey base context data id resource searchParams token options st).2 in
  st' = st0 ∨ st' = st1
  ∨ ∃ c call, heap st1 !! l = Some c ∧ site call = PostRequest
      ∧ st' = counted set_ethosPostCount ethosPostCount l c call st1.
Proof.
  intros l st0 st1 st'. subst st'. rewrite post_unfold. subst l st0 st1.
  destruct (context_or_new context st) as [l st0]. cbn [fst snd].
  destruct (truthy resource); [|by left].
  destruct (getToken E apiKey (Some l) options token st0) as [[r|e|] st1];
    cbn [snd]; [|right; left; reflexivity|right; left; reflexivity].
  destruct (truthy (Some (result_token r))); [|right; left; reflexivity].
  destruct (buildUrl E _ id options resource); [right; left; reflexivity|].
  destruct (heap st1 !! l) as [c|] eqn:Hl; [|right; left; reflexivity].
  right; right. eexists c, _. split; [done|]. split; [|reflexivity]. done.
Qed.

Lemma graphql_final_state apiKey context options query token variables st :
  let l := (context_or_new context st).1 in
  let st0 := (context_or_new context st).2 in
  let st1 := (getToken E apiKey (Some l) options token st0).2 in
  let st' := (graphql E apiKey context options query token variables st).2 in
  st' = st0 ∨ st' = st1
  ∨ ∃ c call, heap st1 !! l = Some c ∧ site call = GraphqlRequest
      ∧ st' = counted set_ethosGraphQLCount ethosGraphQLCount l c call st1.
Proof.
  intros l st0 st1 st'. subst st'. rewrite graphql_unfold. subst l st0 st1.
  destruct (context_or_new context st) as [l st0]. cbn [fst snd].
  destruct (getToken E apiKey (Some l) options token st0) as [[r|e|] st1];
    cbn [snd]; [|right; left; reflexivity|right; left; reflexivity].
  destruct (truthy (Some (result_token r))); [|right; left; reflexivity].
  destruct (heap st1 !! l) as [c|] eqn:Hl; [|right; left; reflexivity].
  right; right. eexists c, _. split; [done|]. split; [|reflexivity]. done.
Qed.

Lemma cache_entry_counted set count l c call st l' k :
  (∀ n c, tokensByApiKey (set n c) = tokensByApiKey c) →
  heap st !! l = Some c →
  cache_entry (counted set count l c call st) l' k = cache_entry st l' k.
Proof.
  intros Hset Hl. unfold cache_entry, counted. simpl.
  destruct (decide (l' = l)) as [->|Hne].
  - rewrite list_lookup_insert_eq by by eapply lookup_lt_Some.
    rewrite Hl. simpl. by rewrite Hset.
  - by rewrite list_lookup_insert_ne.
Qed.

Lemma cache_entry_context_or_new context st l' k :
  cache_entry (context_or_new context st).2 l' k = cache_entry st l' k.
Proof. by destruct (untouched_context_or_new context st) as [_ H]. Qed.

(** The cache entries after a wrapper are those after its token
    resolution, or those before the call. *)
Lemma wrapper_cache_entries st0 st1 st' l set count own :
  (∀ n c, tokensByApiKey (set n c) = tokensByApiKey c) →
  st' = st0 ∨ st' = st1
  ∨ (∃ c call, heap st1 !! l = Some c ∧ site call = own
       ∧ st' = counted set count l c call st1) →
  ∀ l' k, cache_entry st' l' k = cache_entry st0 l' k
          ∨ cache_entry st' l' k = cache_entry st1 l' k.
Proof.
  intros Hset [->|[->|(c & call & Hl & _ & ->)]] l' k; [by left|by right|].
  right. by apply cache_entry_counted.
Qed.
End FinalStates.

(** *** The token cache *)



(** X4. The cache is never pruned: an entry present before a call of
    [getToken], [get], [post] or [graphql], with any context argument, is
    present after it (the same one, or the one that replaced it under its
    key), whatever the outcome of the call. *)
Theorem cache_never_shrinks (E : Env) (apiKey base : option string)
    (context : option loc) (data : value) (id resource : option string)
    (searchParams : option (gmap string value)) (token : option string)
    (options : option Options) (query variables : value) (st : State)
    (l' : loc) (k : string) :
  is_Some (cache_entry st l' k) →
  is_Some (cache_entry (getToken E apiKey context options token st).2 l' k)
  ∧ is_Some (cache_entry
               (get E apiKey base context id resource searchParams token options st).2
               l' k)
  ∧ is_Some (cache_entry
               (post E apiKey base context data id resource searchParams token
                  options st).2 l' k)
  ∧ is_Some (cache_entry
               (graphql E apiKey context options query token variables st).2 l' k).
Proof.
  intros Hsome.
  set (l := (context_or_new context st).1).
  set (st0 := (context_or_new context st).2).
  assert (H0 : is_Some (cache_entry st0 l' k)).
  { subst st0. by rewrite cache_entry_context_or_new. }
  pose proof (getToken_cache_kept E apiKey l options token st0 l' k H0) as H1.
  split.
  { destruct context as [l0|]; [exact H1|]. rewrite getToken_default. exact H1. }
  split; [|split].
  - destruct (wrapper_cache_entries _ _ _ l set_ethosGetCount ethosGetCount GetRequest
                ltac:(done)
                (get_final_state E apiKey base context id resource searchParams token
                   options st) l' k) as [->| ->]; done.
  - destruct (wrapper_cache_entries _ _ _ l set_ethosPostCount ethosPostCount PostRequest
                ltac:(done)
                (post_final_state E apiKey base context data id resource searchParams
                   token options st) l' k) as [->| ->]; done.
  - destruct (wrapper_cache_entries _ _ _ l set_ethosGraphQLCount ethosGraphQLCount
                GraphqlRequest ltac:(done)
                (graphql_final_state E apiKey context options query token variables st)
                l' k) as [->| ->]; done.
Qed.

Lemma cache_never_shrinks_witness :
  is_Some (cache_entry (cached_state 1020000) 0%nat "K")
  ∧ is_Some (cache_entry
               (graphql sample_env (Some "K") (Some 0%nat) (at_root "https://down")
                  VNull None VNull (cached_state 1020000)).2 0%nat "K").
Proof.
  assert (H : is_Some (cache_entry (cached_state 1020000) 0%nat "K")) by by eexists.
  split; [exact H|].
  exact (proj2 (proj2 (proj2 (cache_never_shrinks sample_env (Some "K") None
                                (Some 0%nat) VNull None None None None
                                (at_root "https://down") VNull VNull
                                (cached_state 1020000) 0%nat "K" H)))).
Defined.

(** *** The HTTP calls of one operation *)

Section Calls.
Context (E : Env).

Lemma getToken_calls apiKey l options token st :
  ∃ auths,
    calls (getToken E apiKey (Some l) options token st).2 = (calls st ++ auths)%list
    ∧ (length auths ≤ 1)%nat
    ∧ Forall (λ call, site call = AuthExchange) auths.
Proof.
  destruct (getToken E apiKey (Some l) options token st) as [out st'] eqn:Hrun.
  destruct (getToken_shape E _ _ _ _ _ _ _ Hrun) as (_ & [Hc|(key & _ & _ & Hc)] & _).
  - exists []. simpl. rewrite Hc, app_nil_r. split; [done|]. split; [lia|constructor].
  - exists [auth_call E key options]. simpl. rewrite Hc.
    split; [done|]. split; [done|]. by repeat constructor.
Qed.

Lemma wrapper_calls_of st st0 st1 st' l set count own :
  calls st0 = calls st →
  (∃ auths, calls st1 = (calls st0 ++ auths)%list ∧ (length auths ≤ 1)%nat
            ∧ Forall (λ call, site call = AuthExchange) auths) →
  st' = st0 ∨ st' = st1
  ∨ (∃ c call, heap st1 !! l = Some c ∧ site call = own
       ∧ st' = counted set count l c call st1) →
  ∃ new, calls st' = (calls st ++ new)%list ∧ wrapper_calls own new.
Proof.
  intros H0 (auths & H1 & Hlen & Hauth) [->|[->|(c & call & _ & Hsite & ->)]].
  - exists []. rewrite H0, app_nil_r. split; [done|].
    exists [], []. simpl. repeat split; try lia; constructor.
  - exists auths. rewrite H1, H0. split; [done|].
    exists auths, []. rewrite app_nil_r. simpl. repeat split; try lia; [done|constructor].
  - exists (auths ++ [call])%list. unfold counted. simpl.
    rewrite H1, H0, app_assoc. split; [done|].
    exists auths, [call]. simpl. repeat split; try lia; [done|].
    by repeat constructor.
Qed.
End Calls.

(** X5. No operation retries or fans out: one call of [getToken] adds at
    most one HTTP call to the log, an authentication exchange; one call of
    [get], [post] or [graphql] adds at most one authentication exchange
    followed by at most one request of its own, and nothing else, whatever
    the arguments, the state and the outcome.  The earlier calls of the log
    stay as they are. *)
Theorem calls_per_operation (E : Env) (apiKey base : option string)
    (context : option loc) (data : value) (id resource : option string)
    (searchParams : option (gmap string value)) (token : option string)
    (options : option Options) (query variables : value) (st : State) :
  (∃ new,
     calls (getToken E apiKey context options token st).2 = (calls st ++ new)%list
     ∧ (length new ≤ 1)%nat
     ∧ Forall (λ call, site call = AuthExchange) new)
  ∧ (∃ new,
       calls (get E apiKey base context id resource searchParams token options st).2
         = (calls st ++ new)%list
       ∧ wrapper_calls GetRequest new)
  ∧ (∃ new,
       calls (post E apiKey base context data id resource searchParams token
                options st).2 = (calls st ++ new)%list
       ∧ wrapper_calls PostRequest new)
  ∧ (∃ new,
       calls (graphql E apiKey context options query token variables st).2
         = (calls st ++ new)%list
       ∧ wrapper_calls GraphqlRequest new).
Proof.
  set (l := (context_or_new context st).1).
  set (st0 := (context_or_new context st).2).
  assert (H0 : calls st0 = calls st) by by subst st0; destruct context.
  pose proof (getToken_calls E apiKey l options token st0) as H1.
  split.
  { destruct context as [l0|]; [exact H1|]. rewrite getToken_default.
    destruct H1 as (auths & H1 & ?). exists auths. by rewrite <- H0. }
  split; [|split].
  - exact (wrapper_calls_of st st0 _ _ l set_ethosGetCount ethosGetCount GetRequest H0 H1
             (get_final_state E apiKey base context id resource searchParams token
                options st)).
  - exact (wrapper_calls_of st st0 _ _ l set_ethosPostCount ethosPostCount PostRequest
             H0 H1
             (post_final_state E apiKey base context data id resource searchParams token
                options st)).
  - exact (wrapper_calls_of st st0 _ _ l set_ethosGraphQLCount ethosGraphQLCount
             GraphqlRequest H0 H1
             (graphql_final_state E apiKey context options query token variables st)).
Qed.

(** *** Failures before and around token resolution *)

(** X6. A missing resource name (absent or empty) makes [get] and [post]
    throw their missing-resource error before anything else happens: the
    token is not resolved even when one is needed, no HTTP call is issued,
    and a supplied context, with its cache and counters, is left as it is. *)
Theorem missing_resource (E : Env) (apiKey base : option string) (l : loc)
    (data : value) (id resource : option string)
    (searchParams : option (gmap string value)) (token : option string)
    (options : option Options) (st : State) :
  truthy resource = None →
  get E apiKey base (Some l) id resource searchParams token options st
    = (Throw (Error "get: missing resource name"), st)
  ∧ post E apiKey base (Some l) data id resource searchParams token options st
    = (Throw (Error "post: missing resource name"), st).
Proof.
  intros Hres. rewrite get_unfold, post_unfold. simpl. by rewrite Hres.
Qed.

Lemma missing_resource_witness :
  get sample_env (Some "K") None (Some 0%nat) None (Some "") None None None fresh_state
    = (Throw (Error "get: missing resource name"), fresh_state)
  ∧ post sample_env None None (Some 0%nat) VNull None None None None None fresh_state
    = (Throw (Error "post: missing resource name"), fresh_state).
Proof.
  split.
  - exact (proj1 (missing_resource sample_env (Some "K") None 0%nat VNull None (Some "")
                    None None None fresh_state eq_refl)).
  - exact (proj2 (missing_resource sample_env None None 0%nat VNull None None
                    None None None fresh_state eq_refl)).
Defined.

Section Propagation.
Context (E : Env).

(** When token resolution does not give a usable token, the three
    wrappers end where it ended. *)
Lemma wrappers_without_token apiKey base context data id resource searchParams token
    options query variables st l st0 out st1 :
  default_context context st = (Return l, st0) →
  truthy resource ≠ None →
  getToken E apiKey (Some l) options token st0 = (out, st1) →
  match out with
  | Return r => result_token r = ""
  | _ => True
  end →
  let ends (A : Type) (message : string) (run : Outcome A * State) :=
    run = (match out with
           | Return _ => Throw (Error message)
           | Throw e => Throw e
           | Wrong => Wrong
           end, st1) in
  ends _ "get failed to get a token"
    (get E apiKey base context id resource searchParams token options st)
  ∧ ends _ "post failed to get a token"
      (post E apiKey base context data id resource searchParams token options st)
  ∧ ends _ "grapql failed to get a token"
      (graphql E apiKey context options query token variables st).
Proof.
  intros Hd Hres Htok Hout ends. subst ends. cbv beta.
  rewrite get_unfold, post_unfold, graphql_unfold.
  rewrite (context_or_new_run _ _ _ _ Hd), Htok.
  destruct (truthy resource); [|done].
  destruct out as [r| |]; [|done..]. by rewrite Hout.
Qed.

Lemma buildUrl_unknown base id options resource :
  ¬ known_base base →
  buildUrl E (Some (default "api" base)) id options resource
    = inl (ConfigurationError (default "api" base)).
Proof.
  unfold known_base, buildUrl. simpl. intros Hb.
  rewrite decide_False by tauto. by rewrite decide_False by tauto.
Qed.
End Propagation.

(** X7. A failure of token resolution is thrown by the wrappers, never
    turned into an error-result.  For a [get], [post] or [graphql] call
    without supplied token and without usable cached entry: with a missing
    API key each throws the missing-apiKey error and issues no HTTP call;
    when the authentication POST answers a status other than 200 each throws
    the authentication error carrying the status, and when the client fails
    on it each throws what the client threw; in both cases the
    authentication exchange is the only HTTP call issued. *)
Theorem token_failure_propagates (E : Env) (apiKey base : option string)
    (context : option loc) (data : value) (id resource : option string)
    (searchParams : option (gmap string value)) (token : option string)
    (options : option Options) (query variables : value)
    (st st0 : State) (l : loc) (c : ContextObject) :
  default_context context st = (Return l, st0) →
  heap st0 !! l = Some c →
  truthy resource ≠ None →
  truthy token = None →
  ¬ usable (Date_getTime E) (cache_entry st0 l (property_key apiKey)) →
  let get_run := get E apiKey base context id resource searchParams token options st in
  let post_run :=
    post E apiKey base context data id resource searchParams token options st in
  let graphql_run := graphql E apiKey context options query token variables st in
  let all_throw (e : thrown) (new : list HttpCall) :=
    (get_run.1 = Throw e ∧ calls get_run.2 = (calls st ++ new)%list)
    ∧ (post_run.1 = Throw e ∧ calls post_run.2 = (calls st ++ new)%list)
    ∧ (graphql_run.1 = Throw e ∧ calls graphql_run.2 = (calls st ++ new)%list) in
  (truthy apiKey = None → all_throw (Error "getToken missing apiKey") [])
  ∧ (∀ key response,
       truthy apiKey = Some key →
       got_post E (url (auth_call E key options)) (request (auth_call E key options))
         = Responds response →
       statusCode response ≠ 200 →
       all_throw (AuthenticationError (statusCode response)) [auth_call E key options])
  ∧ (∀ key e,
       truthy apiKey = Some key →
       got_post E (url (auth_call E key options)) (request (auth_call E key options))
         = Fails e →
       all_throw e [auth_call E key options]).
Proof.
  intros Hd Hl Hres Htok Hu get_run post_run graphql_run all_throw.
  assert (H0 : calls st0 = calls st).
  { rewrite default_context_run in Hd. injection Hd as _ <-. by destruct context. }
  destruct (getToken_lookup E apiKey l options token st0 c Htok Hl)
    as (_ & _ & Hmissing & Hmiss).
  rewrite <- (cache_entry_lookup st0 l c) in Hmissing, Hmiss by done.
  assert (Hall : ∀ e st1 new,
    getToken E apiKey (Some l) options token st0 = (Throw e, st1) →
    calls st1 = (calls st ++ new)%list → all_throw e new).
  { intros e st1 new Hrun Hcalls.
    destruct (wrappers_without_token E apiKey base context data id resource searchParams
                token options query variables st l st0 (Throw e) st1 Hd Hres Hrun I)
      as (Hg & Hp & Hq).
    subst all_throw get_run post_run graphql_run. cbv beta.
    by rewrite Hg, Hp, Hq. }
  split; [|split].
  - intros Hkey. eapply Hall; [by apply Hmissing|]. simpl. by rewrite H0, app_nil_r.
  - intros key response Hkey Hgot Hs.
    specialize (Hmiss Hu key Hkey). cbv zeta in Hmiss. rewrite Hgot in Hmiss.
    rewrite decide_False in Hmiss by done.
    eapply Hall; [exact Hmiss|]. simpl. by rewrite H0.
  - intros key e Hkey Hgot.
    specialize (Hmiss Hu key Hkey). cbv zeta in Hmiss. rewrite Hgot in Hmiss.
    eapply Hall; [exact Hmiss|]. simpl. by rewrite H0.
Qed.

Lemma token_failure_propagates_witness :
  (get sample_env None None (Some 0%nat) None (Some "students") None None None
     fresh_state).1 = Throw (Error "getToken missing apiKey")
  ∧ (get sample_env (Some "K") None (Some 0%nat) None (Some "students") None None
       (at_root "https://down") fresh_state).1 = Throw (AuthenticationError 401)
  ∧ (graphql sample_env (Some "K") (Some 0%nat) (at_root "https://gone") VNull None
       VNull fresh_state).1 = Throw (RequestError "ECONNREFUSED").
Proof.
  assert (Hu : ∀ apiKey, ¬ usable (Date_getTime sample_env)
                 (cache_entry fresh_state 0%nat (property_key apiKey))).
  { intros apiKey. unfold cache_entry. simpl. tauto. }
  split; [|split].
  - exact (proj1 (proj1 (proj1 (token_failure_propagates sample_env None None
             (Some 0%nat) VNull None (Some "students") None None None VNull VNull
             fresh_state fresh_state 0%nat empty_object eq_refl eq_refl
             ltac:(discriminate) eq_refl (Hu None)) eq_refl))).
  - exact (proj1 (proj1 (proj1 (proj2 (token_failure_propagates sample_env (Some "K")
             None (Some 0%nat) VNull None (Some "students") None None
             (at_root "https://down") VNull VNull
             fresh_state fresh_state 0%nat empty_object eq_refl eq_refl
             ltac:(discriminate) eq_refl (Hu (Some "K"))))
             "K" {| statusCode := 401; body := "denied" |} eq_refl eq_refl
             ltac:(discriminate)))).
  - exact (proj1 (proj2 (proj2 (proj2 (proj2 (token_failure_propagates sample_env
             (Some "K") None (Some 0%nat) VNull None (Some "students") None None
             (at_root "https://gone") VNull VNull
             fresh_state fresh_state 0%nat empty_object eq_refl eq_refl
             ltac:(discriminate) eq_refl (Hu (Some "K"))))
             "K" (RequestError "ECONNREFUSED") eq_refl eq_refl)))).
Defined.

(** X8. An authentication answer of status 200 with an empty body is
    cached like any other: the wrapper that asked throws its
    failed-to-get-a-token error after the exchange, the empty token stays in
    the cache, and until [now + 270000] every later [get], [post] or
    [graphql] for that key on that context throws the same error without
    any HTTP call and without changing the state. *)
Theorem empty_token_cached (E E2 : Env) (apiKey base base2 : option string)
    (key : string) (context : option loc) (data data2 : value)
    (id id2 resource resource2 : option string)
    (searchParams searchParams2 : option (gmap string value))
    (token token2 : option string) (options options2 : option Options)
    (query query2 variables variables2 : value)
    (st st0 : State) (l : loc) (c : ContextObject) (response : Response) :
  default_context context st = (Return l, st0) →
  heap st0 !! l = Some c →
  truthy resource ≠ None →
  truthy resource2 ≠ None →
  truthy token = None →
  truthy token2 = None →
  truthy apiKey = Some key →
  ¬ usable (Date_getTime E) (cache_entry st0 l key) →
  got_post E (url (auth_call E key options)) (request (auth_call E key options))
    = Responds response →
  statusCode response = 200 →
  body response = "" →
  Date_getTime E2 < Date_getTime E + 270000 →
  ∃ st1,
    calls st1 = (calls st ++ [auth_call E key options])%list
    ∧ cache_entry st1 l key = Some {| expires := Date_getTime E + 300000; token := "" |}
    ∧ get E apiKey base context id resource searchParams token options st
      = (Throw (Error "get failed to get a token"), st1)
    ∧ post E apiKey base context data id resource searchParams token options st
      = (Throw (Error "post failed to get a token"), st1)
    ∧ graphql E apiKey context options query token variables st
      = (Throw (Error "grapql failed to get a token"), st1)
    ∧ get E2 apiKey base2 (Some l) id2 resource2 searchParams2 token2 options2 st1
      = (Throw (Error "get failed to get a token"), st1)
    ∧ post E2 apiKey base2 (Some l) data2 id2 resource2 searchParams2 token2 options2 st1
      = (Throw (Error "post failed to get a token"), st1)
    ∧ graphql E2 apiKey (Some l) options2 query2 token2 variables2 st1
      = (Throw (Error "grapql failed to get a token"), st1).
Proof.
  intros Hd Hl Hres Hres2 Htok Htok2 Hkey Hu Hgot Hs Hbody Hnow.
  assert (H0 : calls st0 = calls st).
  { rewrite default_context_run in Hd. injection Hd as _ <-. by destruct context. }
  pose proof (getToken_exchanged E apiKey key l options token st0 c response
                Htok Hkey Hl Hu Hgot Hs) as Hrun.
  pose proof (exchanged_entry E key options l c response st0 Hl) as Hentry.
  rewrite Hbody in Hrun, Hentry.
  set (st1 := exchanged E key options l c response st0) in *.
  exists st1. split; [unfold st1; by rewrite exchanged_calls, H0|].
  split; [exact Hentry|].
  destruct (wrappers_without_token E apiKey base context data id resource searchParams
              token options query variables st l st0 _ st1 Hd Hres Hrun eq_refl)
    as (Hg & Hp & Hq).
  split; [exact Hg|]. split; [exact Hp|]. split; [exact Hq|].
  assert (Hrun2 : getToken E2 apiKey (Some l) options2 token2 st1
            = (Return {| result_context := l; result_token := "" |}, st1)).
  { apply (getToken_hit E2 apiKey l options2 token2 st1
             {| expires := Date_getTime E + 300000; token := "" |}).
    - done.
    - by rewrite (property_key_truthy _ _ Hkey).
    - simpl. lia. }
  exact (wrappers_without_token E2 apiKey base2 (Some l) data2 id2 resource2
           searchParams2 token2 options2 query2 variables2 st1 l st1 _ st1
           eq_refl Hres2 Hrun2 eq_refl).
Qed.

(** X9. With a base that [buildUrl] does not know, [get] and [post] throw
    the unknown-base error only after token resolution: the state they
    leave is the one [getToken] left, so an authentication exchange made on
    the way stays logged and its token cached, while no request is issued. *)
Theorem unknown_base_after_token (E : Env) (apiKey base : option string)
    (context : option loc) (data : value) (id resource : option string)
    (searchParams : option (gmap string value)) (token : option string)
    (options : option Options) (st st0 st1 : State) (l : loc) (r : TokenResult) :
  default_context context st = (Return l, st0) →
  truthy resource ≠ None →
  getToken E apiKey (Some l) options token st0 = (Return r, st1) →
  result_token r ≠ "" →
  ¬ known_base base →
  get E apiKey base context id resource searchParams token options st
    = (Throw (ConfigurationError (default "api" base)), st1)
  ∧ post E apiKey base context data id resource searchParams token options st
    = (Throw (ConfigurationError (default "api" base)), st1).
Proof.
  intros Hd Hres Htok Hr Hbase.
  rewrite get_unfold, post_unfold, (context_or_new_run _ _ _ _ Hd), Htok.
  rewrite (truthy_nonempty _ Hr), (buildUrl_unknown E _ _ _ _ Hbase).
  by destruct (truthy resource).
Qed.

Lemma unknown_base_after_token_witness :
  ∃ st1,
    get sample_env (Some "K") (Some "v2") (Some 0%nat) None (Some "students") None None
      None fresh_state = (Throw (ConfigurationError "v2"), st1)
    ∧ calls st1 = [auth_call sample_env "K" None]
    ∧ cache_entry st1 0%nat "K" = Some {| expires := 1300000; token := "tok123" |}.
Proof.
  eexists. split.
  - exact (proj1 (unknown_base_after_token sample_env (Some "K") (Some "v2")
                    (Some 0%nat) VNull None (Some "students") None None None
                    fresh_state fresh_state _ 0%nat
                    {| result_context := 0%nat; result_token := "tok123" |}
                    eq_refl ltac:(discriminate) eq_refl ltac:(discriminate)
                    ltac:(vm_compute; intros [H|[H|[H|H]]]; discriminate H))).
  - split; reflexivity.
Defined.

Lemma empty_token_cached_witness :
  ∃ st1,
    get silent_env (Some "K") None (Some 0%nat) None (Some "students") None None None
      fresh_state = (Throw (Error "get failed to get a token"), st1)
    ∧ calls st1 = [auth_call silent_env "K" None]
    ∧ graphql silent_env (Some "K") (Some 0%nat) None VNull None VNull st1
      = (Throw (Error "grapql failed to get a token"), st1).
Proof.
  destruct (empty_token_cached silent_env silent_env (Some "K") None None "K"
              (Some 0%nat) VNull VNull None None (Some "students") (Some "students")
              None None None None None None VNull VNull VNull VNull
              fresh_state fresh_state 0%nat empty_object
              {| statusCode := 200; body := "" |}
              eq_refl eq_refl ltac:(discriminate) ltac:(discriminate) eq_refl eq_refl
              eq_refl ltac:(unfold cache_entry; simpl; tauto) eq_refl eq_refl eq_refl
              eq_refl)
    as (st1 & Hcalls & _ & Hget & _ & _ & _ & _ & Hgraphql).
  exists st1. split; [exact Hget|]. split; [exact Hcalls|exact Hgraphql].
Defined.

(** *** Calls in sequence *)

Section SequencesSupport.
Context (E : Env).

End SequencesSupport.





(** *** Requests *)

(** X12. Normalising the search parameters is idempotent and touches only
    [criteria]: after it, [criteria] is a string or a falsy value, every
    other parameter is what it was, a [criteria] that is already a string
    or is falsy is left alone, and a second normalisation changes
    nothing. *)
Theorem stringify_criteria_normal (E : Env) (params : gmap string value) :
  let normal := stringify_criteria E params in
  stringify_criteria E normal = normal
  ∧ (∀ k, k ≠ "criteria" → normal !! k = params !! k)
  ∧ (∀ v, normal !! "criteria" = Some v → truthy_value v = true → ∃ s, v = VStr s)
  ∧ (∀ v, params !! "criteria" = Some v →
       truthy_value v = false ∨ not_a_string v = false → normal = params)
  ∧ (∀ v, params !! "criteria" = Some v →
       truthy_value v = true → not_a_string v = true →
       normal !! "criteria" = Some (VStr (JSON_stringify E v))).
Proof.
  unfold stringify_criteria.
  destruct (params !! "criteria") as [v|] eqn:Hc; [|by rewrite Hc; split_and!].
  destruct (truthy_value v) eqn:Htruthy; simpl;
    [destruct (not_a_string v) eqn:Hstring; simpl|].
  - rewrite lookup_insert_eq. simpl. rewrite andb_false_r.
    split_and!.
    + done.
    + intros k Hk. by rewrite lookup_insert_ne.
    + intros w [= <-] _. by eexists.
    + intros w [= <-] [?|?]; congruence.
    + by intros w [= <-] _ _.
  - rewrite Hc, Htruthy, Hstring. simpl. split_and!.
    + done.
    + done.
    + intros w [= <-] _. destruct v; try done. by eexists.
    + done.
    + intros w [= <-]. congruence.
  - rewrite Hc, Htruthy. simpl. split_and!.
    + done.
    + done.
    + intros w [= <-]. congruence.
    + done.
    + intros w [= <-]. congruence.
Qed.

Lemma stringify_criteria_normal_witness :
  stringify_criteria sample_env {[ "criteria" := VObj []; "limit" := VNum 5 ]}
    !! "criteria" = Some (VStr "{}")
  ∧ stringify_criteria sample_env {[ "criteria" := VObj []; "limit" := VNum 5 ]}
      !! "limit" = Some (VNum 5).
Proof.
  destruct (stringify_criteria_normal sample_env
              {[ "criteria" := VObj []; "limit" := VNum 5 ]})
    as (_ & Hother & _ & _ & Hcriteria).
  split.
  - exact (Hcriteria (VObj []) eq_refl eq_refl eq_refl).
  - rewrite (Hother "limit" ltac:(discriminate)). reflexivity.
Defined.

(** X13. The headers of the requests.  Every request of [get], [post] and
    [graphql] carries [Authorization: Bearer] followed by the token in use,
    and every request of [post] carries [Content-Type: application/json],
    whatever headers the caller passes in [options.headers]; every other
    header is the caller's when the caller gives it, and otherwise the
    default of the template ([Accept], [Cache-Control]), so the caller can
    replace the defaults but neither the authorization nor the content
    type of a post. *)
Theorem request_headers (tokenToUse : string) (options : option Options)
    (params : gmap string value) (data query variables : value) :
  let caller := default ∅ (options ≫= options_headers) in
  let inherited (k : string) :=
    match caller !! k with
    | Some v => Some v
    | None => headers baseOptions !! k
    end in
  let g := headers (get_requestOptions tokenToUse options params) in
  let p := headers (post_requestOptions tokenToUse options params data) in
  let q := headers (graphql_requestOptions tokenToUse options query variables) in
  g !! "Authorization" = Some ("Bearer " +:+ tokenToUse)
  ∧ p !! "Authorization" = Some ("Bearer " +:+ tokenToUse)
  ∧ q !! "Authorization" = Some ("Bearer " +:+ tokenToUse)
  ∧ p !! "Content-Type" = Some "application/json"
  ∧ (∀ k, k ≠ "Authorization" → g !! k = inherited k ∧ q !! k = inherited k)
  ∧ (∀ k, k ≠ "Authorization" → k ≠ "Content-Type" → p !! k = inherited k).
Proof.
  intros caller inherited g p q. subst g p q inherited.
  unfold get_requestOptions, post_requestOptions, graphql_requestOptions,
    addAuthorization, createNewRequestOptions, Object_assign. simpl.
  fold caller.
  split_and!.
  - by rewrite lookup_insert_eq.
  - by rewrite lookup_insert_eq.
  - by rewrite lookup_insert_eq.
  - rewrite lookup_insert_ne by done.
    apply lookup_union_Some_l, lookup_union_Some_l, lookup_singleton_eq.
  - intros k Hk. subst caller. rewrite lookup_insert_ne by done.
    destruct (options ≫= options_headers) as [h|]; simpl.
    + rewrite lookup_union.
      destruct (h !! k); by destruct (_ !! k).
    + by rewrite lookup_empty.
  - intros k Hk Hk'. rewrite lookup_insert_ne by done.
    rewrite !lookup_union, lookup_singleton_ne, lookup_empty by done.
    destruct (caller !! k); by destruct (_ !! k).
Qed.

Lemma request_headers_witness :
  let options :=
    Some {| ethosIntegrationUrl := None;
            options_headers :=
              Some {[ "Authorization" := "Basic x"; "Accept" := "text/csv";
                      "Content-Type" := "text/plain" ]} |} in
  let p := headers (post_requestOptions "t" options ∅ VNull) in
  p !! "Authorization" = Some "Bearer t"
  ∧ p !! "Content-Type" = Some "application/json"
  ∧ p !! "Accept" = Some "text/csv"
  ∧ p !! "Cache-Control" = Some "no-cache".
Proof.
  intros options p.
  destruct (request_headers "t" options ∅ VNull VNull VNull)
    as (_ & Hauth & _ & Hcontent & _ & Hother).
  split; [exact Hauth|]. split; [exact Hcontent|]. split.
  - exact (Hother "Accept" ltac:(discriminate) ltac:(discriminate)).
  - exact (Hother "Cache-Control" ltac:(discriminate) ltac:(discriminate)).
Defined.

(** X14. A [graphql] answer of status 200 whose body is valid JSON but
    has no properties to spread (null, a boolean, a number) is not an
    error: the call returns the object that holds [context] alone. *)
Theorem graphql_scalar_body (E : Env) (apiKey : option string) (context : option loc)
    (options : option Options) (query : value) (token : option string)
    (variables : value) (st st0 st1 : State) (l : loc) (r : TokenResult)
    (response : Response) (parsed : value) :
  default_context context st = (Return l, st0) →
  is_Some (heap st0 !! l) →
  getToken E apiKey (Some l) options token st0 = (Return r, st1) →
  result_token r ≠ "" →
  got_post E (interpolate (integrationUrl E options) +:+ "/graphql")
    (graphql_requestOptions (result_token r) options query variables)
    = Responds response →
  statusCode response = 200 →
  JSON_parse E (body response) = Some parsed →
  parsed = VNull ∨ (∃ b, parsed = VBool b) ∨ (∃ n, parsed = VNum n) →
  (graphql E apiKey context options query token variables st).1
    = Return {[ "context" := Ref l ]}.
Proof.
  intros Hd Hvalid Htok Hr Hgot Hs Hparse Hscalar.
  destruct (graphql_resolved E apiKey context options query token variables
              st l st0 r st1 Hd Hvalid Htok Hr) as (c & _ & Hrun).
  rewrite Hrun. cbn [fst]. cbv zeta. rewrite Hgot. simpl.
  rewrite decide_True, Hparse by done.
  by destruct Hscalar as [->|[[b ->]|[n ->]]].
Qed.

(** X15. [getToken] without a context argument works on a new context:
    when the authentication exchange answers 200, the context it returns is
    an object that did not exist before, it holds the fetched token under
    the API key, and every object that existed is unchanged. *)
Theorem getToken_new_context (E : Env) (apiKey : option string) (key : string)
    (options : option Options) (token : option string) (st : State)
    (response : Response) :
  truthy token = None →
  truthy apiKey = Some key →
  got_post E (url (auth_call E key options)) (request (auth_call E key options))
    = Responds response →
  statusCode response = 200 →
  ∃ st',
    getToken E apiKey None options token st
      = (Return {| result_context := length (heap st);
                   result_token := body response |}, st')
    ∧ heap st !! length (heap st) = None
    ∧ heap st'
      = (heap st
         ++ [set_tokensByApiKey
               {[ key := {| expires := Date_getTime E + 300000;
                            token := body response |} ]} empty_object])%list
    ∧ calls st' = (calls st ++ [auth_call E key options])%list.
Proof.
  intros Htok Hkey Hgot Hs.
  set (l := length (heap st)).
  set (st0 := with_heap (heap st ++ [empty_object]) st).
  assert (Hl : heap st0 !! l = Some empty_object) by by apply list_lookup_middle.
  assert (Hu : ¬ usable (Date_getTime E) (cache_entry st0 l key)).
  { unfold cache_entry. rewrite Hl. simpl. tauto. }
  exists (exchanged E key options l empty_object response st0).
  split.
  { rewrite getToken_default. by apply getToken_exchanged. }
  split; [by apply lookup_ge_None_2|]. split; [|done].
  unfold exchanged, st0. simpl. rewrite list_insert_insert_eq.
  unfold l. rewrite insert_app_r_alt, Nat.sub_diag by done. simpl.
  by rewrite insert_empty.
Qed.

Lemma getToken_new_context_witness :
  ∃ st',
    getToken sample_env (Some "K") None None None fresh_state
      = (Return {| result_context := 1%nat; result_token := "tok123" |}, st')
    ∧ heap st'
      = [empty_object;
         set_tokensByApiKey {[ "K" := {| expires := 1300000; token := "tok123" |} ]}
           empty_object].
Proof.
  destruct (getToken_new_context sample_env (Some "K") "K" None None fresh_state
              {| statusCode := 200; body := "tok123" |} eq_refl eq_refl eq_refl eq_refl)
    as (st' & Hrun & _ & Hheap & _).
  exists st'. split; [exact Hrun|exact Hheap].
Defined.

(** X16. The root of every URL: a non-empty [options.ethosIntegrationUrl]
    is the root and the environment is not consulted, so the URL is the
    same in every environment; an absent or empty one falls back to
    [ETHOS_INTEGRATION_URL]; when that is unset too, [buildUrl] with a known
    base does not fail but builds a URL that starts with the word
    undefined. *)
Theorem integration_root (E E' : Env) (base id resource : option string)
    (options : option Options) :
  known_base base →
  (∀ root, truthy (options ≫= ethosIntegrationUrl) = Some root →
     integrationUrl E options = Some root
     ∧ buildUrl E' (Some (default "api" base)) id options resource
       = buildUrl E (Some (default "api" base)) id options resource)
  ∧ (truthy (options ≫= ethosIntegrationUrl) = None →
       integrationUrl E options = ETHOS_INTEGRATION_URL E)
  ∧ (truthy (options ≫= ethosIntegrationUrl) = None →
       ETHOS_INTEGRATION_URL E = None →
       ∃ path, buildUrl E (Some (default "api" base)) id options resource
               = inr ("undefined" +:+ path)).
Proof.
  intros Hbase. unfold buildUrl, integrationUrl. simpl default.
  split; [|split].
  - intros root ->. done.
  - by intros ->.
  - intros -> ->. simpl. case_decide; [by eexists|].
    rewrite decide_True by (unfold known_base in Hbase; simpl in Hbase; tauto).
    by eexists.
Qed.

Lemma integration_root_witness :
  integrationUrl sample_env (at_root "https://override") = Some "https://override"
  ∧ integrationUrl sample_env
      (Some {| ethosIntegrationUrl := Some ""; options_headers := None |})
    = Some "https://ethos"
  ∧ ∃ path,
      buildUrl silent_env_without_root (Some "auth") None None None
        = inr ("undefined" +:+ path).
Proof.
  split; [|split].
  - exact (proj1 (proj1 (integration_root sample_env sample_env None None None
                           (at_root "https://override")
                           (or_intror (or_introl eq_refl)))
                    "https://override" eq_refl)).
  - exact (proj1 (proj2 (integration_root sample_env sample_env None None None
                           (Some {| ethosIntegrationUrl := Some "";
                                    options_headers := None |})
                           (or_intror (or_introl eq_refl))))
             eq_refl).
  - exact (proj2 (proj2 (integration_root silent_env_without_root
                           silent_env_without_root (Some "auth") None None None
                           (or_intror (or_intror (or_introl eq_refl)))))
             eq_refl eq_refl).
Defined.

Lemma fetched_token_reused_witness :
  ∃ st1,
    getToken sample_env (Some "K") (Some 0%nat) None None fresh_state
      = (Return {| result_context := 0%nat; result_token := "tok123" |}, st1)
    ∧ getToken (sample_env_at 1269999) (Some "K") (Some 0%nat)
        (at_root "https://down") None st1
      = (Return {| result_context := 0%nat; result_token := "tok123" |}, st1)
    ∧ calls (getToken (sample_env_at 1270000) (Some "K") (Some 0%nat)
               (at_root "https://down") None st1).2
      = (calls st1 ++ [auth_call (sample_env_at 1270000) "K"
                         (at_root "https://down")])%list.
Proof.
  destruct (fetched_token_reused sample_env (sample_env_at 1269999) (Some "K") "K"
              0%nat None (at_root "https://down") None None fresh_state empty_object
              {| statusCode := 200; body := "tok123" |}
              eq_refl eq_refl eq_refl eq_refl
              ltac:(unfold cache_entry; simpl; tauto) eq_refl eq_refl)
    as (st1 & Hrun & Hhit & _).
  destruct (fetched_token_reused sample_env (sample_env_at 1270000) (Some "K") "K"
              0%nat None (at_root "https://down") None None fresh_state empty_object
              {| statusCode := 200; body := "tok123" |}
              eq_refl eq_refl eq_refl eq_refl
              ltac:(unfold cache_entry; simpl; tauto) eq_refl eq_refl)
    as (st1' & Hrun' & _ & Hmiss).
  assert (st1' = st1) as -> by congruence.
  exists st1. split; [exact Hrun|]. split.
  - exact (Hhit ltac:(reflexivity)).
  - exact (Hmiss ltac:(discriminate)).
Defined.

Lemma graphql_scalar_body_witness :
  (graphql null_env None (Some 0%nat) None VNull (Some "t") VNull fresh_state).1
    = Return {[ "context" := Ref 0%nat ]}.
Proof.
  exact (graphql_scalar_body null_env None (Some 0%nat) None VNull (Some "t") VNull
           fresh_state fresh_state fresh_state 0%nat
           {| result_context := 0%nat; result_token := "t" |}
           {| statusCode := 200; body := "null" |} VNull
           eq_refl ltac:(by eexists) eq_refl ltac:(discriminate)
           eq_refl eq_refl eq_refl (or_introl eq_refl)).
Defined.

(** *** Counters, whatever the outcome *)

Section CountersSupport.
Context (E : Env).


End CountersSupport.

